(** * MK4duo: heater object and AVR interrupt layer

    Shallow embedding of
    - [src/core/heater/heater.h]  (the inline members of class [Heater]), and
    - [src/HAL/HAL_AVR/HAL_AVR.h] ([InterruptProtectedBlock] and the two
      timer interrupt entry sequences [STEPPER_TIMER_ISR], [TEMP_TIMER_ISR]).

    Machine integers are [Z]; the flag union is its [uint8_t all] member with
    the eight one-bit fields read and written as bits 0..7, the numbering the
    source comments give ("Flag bit 0 Set Active" ... "Flag bit 7 Set Pid
    Tuning"). *)

From Stdlib Require Import ZArith List Bool Lia.
Import ListNotations.
Local Open Scope Z_scope.

(* ===================================================================== *)
(** ** heater.h *)
(* ===================================================================== *)

Module heater.

(** [union flagheater_t { uint8_t all; struct { bool Active:1; ... }; }] *)
Record flagheater_t := Build_flag { all : Z }.

(** [flagheater_t() { all = 0x00; }] *)
Definition flagheater_t_ctor : flagheater_t := {| all := 0 |}.

(** Bit numbers of the eight one-bit members, in declaration order. *)
Definition Active_bit            : Z := 0.
Definition UsePid_bit            : Z := 1.
Definition Pidtuned_bit          : Z := 2.
Definition HWInvert_bit          : Z := 3.
Definition Thermalprotection_bit : Z := 4.
Definition Idle_bit              : Z := 5.
Definition Fault_bit             : Z := 6.
Definition Pidtuning_bit         : Z := 7.

(** Reading and assigning a one-bit member of the union. *)
Definition get_bit (n : Z) (f : flagheater_t) : bool := Z.testbit (all f) n.

Definition put_bit (n : Z) (b : bool) (f : flagheater_t) : flagheater_t :=
  {| all := if b then Z.setbit (all f) n else Z.clearbit (all f) n |}.

Definition Active            := get_bit Active_bit.
Definition UsePid            := get_bit UsePid_bit.
Definition Pidtuned          := get_bit Pidtuned_bit.
Definition HWInvert          := get_bit HWInvert_bit.
Definition Thermalprotection := get_bit Thermalprotection_bit.
Definition Idle              := get_bit Idle_bit.
Definition Fault             := get_bit Fault_bit.
Definition Pidtuning         := get_bit Pidtuning_bit.

Inductive HeatertypeEnum := IS_HOTEND | IS_BED | IS_CHAMBER | IS_COOLER.
Inductive TRState        := TRInactive | TRFirstHeating | TRStable | TRRunaway.

(** [heater_data_t] *)
Record heater_data_t := Build_heater_data {
  type    : HeatertypeEnum;
  pin     : Z;
  flag    : flagheater_t;
  ID      : Z;
  mintemp : Z;
  maxtemp : Z
}.

(** [sensor_data_t] is declared in sensor/sensor.h, which is not among
    the sources; heater.h reads its [type] member ([sensor.type != 0]: a
    sensor is configured) and calls its [getTemperature()]. *)
Module sensor.
Record sensor_data_t := Build_sensor_data { type : Z }.
End sensor.

(** Modelled from the spec: [pid_data_t], declared in pid/pid.h, which is
    not among the sources ("gains Kp, Ki, Kd").  The members of class
    [Heater] in heater.h never look inside it. *)
Record pid_data_t := Build_pid_data { Kp : Z; Ki : Z; Kd : Z }.

(** [class Heater]: the public and private data members, in source order.
    [current_temperature] (a [float] in the source) is carried as an
    integer reading; no member of heater.h computes with its fraction. *)
Record Heater := Build_Heater {
  data                  : heater_data_t;
  pid                   : pid_data_t;
  sensor                : sensor.sensor_data_t;
  watch_target_temp     : Z;
  pwm_value             : Z;
  consecutive_low_temp  : Z;
  target_temperature    : Z;
  idle_temperature      : Z;
  current_temperature   : Z;
  thermal_runaway_state : TRState;
  watch_next_ms         : Z;
  idle_timeout_time     : Z
}.

(** *** Field assignments *)

Definition set_flag (f : flagheater_t) (h : Heater) : Heater :=
  {| data := {| type := type (data h); pin := pin (data h); flag := f;
                ID := ID (data h); mintemp := mintemp (data h);
                maxtemp := maxtemp (data h) |};
     pid := pid h; sensor := sensor h;
     watch_target_temp := watch_target_temp h;
     pwm_value := pwm_value h;
     consecutive_low_temp := consecutive_low_temp h;
     target_temperature := target_temperature h;
     idle_temperature := idle_temperature h;
     current_temperature := current_temperature h;
     thermal_runaway_state := thermal_runaway_state h;
     watch_next_ms := watch_next_ms h;
     idle_timeout_time := idle_timeout_time h |}.

Definition set_pwm_value (v : Z) (h : Heater) : Heater :=
  {| data := data h; pid := pid h; sensor := sensor h;
     watch_target_temp := watch_target_temp h;
     pwm_value := v;
     consecutive_low_temp := consecutive_low_temp h;
     target_temperature := target_temperature h;
     idle_temperature := idle_temperature h;
     current_temperature := current_temperature h;
     thermal_runaway_state := thermal_runaway_state h;
     watch_next_ms := watch_next_ms h;
     idle_timeout_time := idle_timeout_time h |}.

Definition set_target_temperature (v : Z) (h : Heater) : Heater :=
  {| data := data h; pid := pid h; sensor := sensor h;
     watch_target_temp := watch_target_temp h;
     pwm_value := pwm_value h;
     consecutive_low_temp := consecutive_low_temp h;
     target_temperature := v;
     idle_temperature := idle_temperature h;
     current_temperature := current_temperature h;
     thermal_runaway_state := thermal_runaway_state h;
     watch_next_ms := watch_next_ms h;
     idle_timeout_time := idle_timeout_time h |}.

Definition set_idle_temperature (v : Z) (h : Heater) : Heater :=
  {| data := data h; pid := pid h; sensor := sensor h;
     watch_target_temp := watch_target_temp h;
     pwm_value := pwm_value h;
     consecutive_low_temp := consecutive_low_temp h;
     target_temperature := target_temperature h;
     idle_temperature := v;
     current_temperature := current_temperature h;
     thermal_runaway_state := thermal_runaway_state h;
     watch_next_ms := watch_next_ms h;
     idle_timeout_time := idle_timeout_time h |}.

Definition set_current_temperature (v : Z) (h : Heater) : Heater :=
  {| data := data h; pid := pid h; sensor := sensor h;
     watch_target_temp := watch_target_temp h;
     pwm_value := pwm_value h;
     consecutive_low_temp := consecutive_low_temp h;
     target_temperature := target_temperature h;
     idle_temperature := idle_temperature h;
     current_temperature := v;
     thermal_runaway_state := thermal_runaway_state h;
     watch_next_ms := watch_next_ms h;
     idle_timeout_time := idle_timeout_time h |}.

Definition set_thermal_runaway_state (v : TRState) (h : Heater) : Heater :=
  {| data := data h; pid := pid h; sensor := sensor h;
     watch_target_temp := watch_target_temp h;
     pwm_value := pwm_value h;
     consecutive_low_temp := consecutive_low_temp h;
     target_temperature := target_temperature h;
     idle_temperature := idle_temperature h;
     current_temperature := current_temperature h;
     thermal_runaway_state := v;
     watch_next_ms := watch_next_ms h;
     idle_timeout_time := idle_timeout_time h |}.

Definition set_watch (wt next : Z) (h : Heater) : Heater :=
  {| data := data h; pid := pid h; sensor := sensor h;
     watch_target_temp := wt;
     pwm_value := pwm_value h;
     consecutive_low_temp := consecutive_low_temp h;
     target_temperature := target_temperature h;
     idle_temperature := idle_temperature h;
     current_temperature := current_temperature h;
     thermal_runaway_state := thermal_runaway_state h;
     watch_next_ms := next;
     idle_timeout_time := idle_timeout_time h |}.

Definition set_consecutive_low_temp (v : Z) (h : Heater) : Heater :=
  {| data := data h; pid := pid h; sensor := sensor h;
     watch_target_temp := watch_target_temp h;
     pwm_value := pwm_value h;
     consecutive_low_temp := v;
     target_temperature := target_temperature h;
     idle_temperature := idle_temperature h;
     current_temperature := current_temperature h;
     thermal_runaway_state := thermal_runaway_state h;
     watch_next_ms := watch_next_ms h;
     idle_timeout_time := idle_timeout_time h |}.

(** [data.flag.X = b] *)
Definition assign_flag (n : Z) (b : bool) (h : Heater) : Heater :=
  set_flag (put_bit n b (flag (data h))) h.

(** *** Inline members of [class Heater] *)

Definition isActive (h : Heater) : bool := Active (flag (data h)).
Definition isUsePid (h : Heater) : bool := UsePid (flag (data h)).
Definition isPidTuned (h : Heater) : bool := Pidtuned (flag (data h)).
Definition isHWinvert (h : Heater) : bool := HWInvert (flag (data h)).
Definition isThermalProtection (h : Heater) : bool :=
  Thermalprotection (flag (data h)).
Definition isIdle (h : Heater) : bool := Idle (flag (data h)).
Definition isFault (h : Heater) : bool := Fault (flag (data h)).
Definition isPidTuning (h : Heater) : bool := Pidtuning (flag (data h)).

(** [update_current_temperature()]: the reading comes from
    [sensor.getTemperature()], an input here. *)
Definition update_current_temperature (reading : Z) (h : Heater) : Heater :=
  set_current_temperature reading h.

Definition isHeating (h : Heater) : bool :=
  current_temperature h <? target_temperature h.
Definition isCooling (h : Heater) : bool :=
  target_temperature h <=? current_temperature h.
Definition tempisrange (h : Heater) : bool :=
  (mintemp (data h) <=? current_temperature h)
  && (current_temperature h <=? maxtemp (data h)).

(** [setActive(onoff)]:
    [if (!isFault() && sensor.type != 0 && onoff) Active = true;
     else Active = false;] *)
Definition setActive (onoff : bool) (h : Heater) : Heater :=
  if negb (isFault h) && negb (sensor.type (sensor h) =? 0) && onoff
  then assign_flag Active_bit true h
  else assign_flag Active_bit false h.

Definition setUsePid (onoff : bool) := assign_flag UsePid_bit onoff.
Definition setPidTuned (onoff : bool) := assign_flag Pidtuned_bit onoff.
Definition setHWinvert (onoff : bool) := assign_flag HWInvert_bit onoff.
Definition setThermalProtection (onoff : bool) :=
  assign_flag Thermalprotection_bit onoff.
Definition setPidTuning (onoff : bool) := assign_flag Pidtuning_bit onoff.

(** [setIdle(onoff, idle_temp)]:
    [Idle = onoff; idle_temperature = idle_temp;
     if (onoff) thermal_runaway_state = TRInactive;] *)
Definition setIdle (onoff : bool) (idle_temp : Z) (h : Heater) : Heater :=
  let h1 := assign_flag Idle_bit onoff h in
  let h2 := set_idle_temperature idle_temp h1 in
  if onoff then set_thermal_runaway_state TRInactive h2 else h2.

(** The call [setIdle(onoff)] with the default argument [idle_temp = 0]. *)
Definition setIdle_default (onoff : bool) (h : Heater) : Heater :=
  setIdle onoff 0 h.

(** [setFault()]: [pwm_value = 0; setActive(false); Fault = true;] *)
Definition setFault (h : Heater) : Heater :=
  let h1 := set_pwm_value 0 h in
  let h2 := setActive false h1 in
  assign_flag Fault_bit true h2.

(** [SwitchOff()]: [target_temperature = 0; pwm_value = 0; setActive(false);] *)
Definition SwitchOff (h : Heater) : Heater :=
  let h1 := set_target_temperature 0 h in
  let h2 := set_pwm_value 0 h1 in
  setActive false h2.

(** [ResetFault()]: [Fault = false; SwitchOff();] *)
Definition ResetFault (h : Heater) : Heater :=
  SwitchOff (assign_flag Fault_bit false h).

(** [resetFlag()]: [data.flag.all = false;] -- the [uint8_t] receives 0. *)
Definition resetFlag (h : Heater) : Heater :=
  set_flag {| all := 0 |} h.

(** *** Members defined in heater.cpp

    heater.h only declares [setTarget], [start_watching],
    [thermal_runaway_protection] and [get_output]; their bodies are in
    heater.cpp.  The per-kind tables [temp_check_interval],
    [temp_hysteresis] and [watch_increase] are filled from configuration
    macros, so they are parameters here, as is the count after which a
    sustained deviation trips the protection. *)

Section Regulation.

Variable temp_check_interval : HeatertypeEnum -> Z.
Variable temp_hysteresis     : HeatertypeEnum -> Z.
Variable watch_increase      : HeatertypeEnum -> Z.
Variable runaway_count       : Z.

(** [wait_for_heating()]:
    [isActive() && ABS(current_temperature - target_temperature)
                   > temp_hysteresis[data.type]] *)
Definition wait_for_heating (h : Heater) : bool :=
  isActive h
  && (temp_hysteresis (type (data h))
        <? Z.abs (current_temperature h - target_temperature h)).

(** Modelled from the spec: "pwm_value in [0, PWM_MAX]"; [pwm_value] is a
    [uint8_t], so full power is 255. *)
Definition PWM_MAX : Z := 255.

(** Modelled from the spec: "clamps to [lo, hi]". *)
Definition clamp (lo hi v : Z) : Z := Z.max lo (Z.min hi v).

(** Modelled from the spec: [start_watching], whose body is in heater.cpp.
    "start_watching() sets watch_target = current_temperature +
    watch_increase[kind] and watch_deadline = now + check_interval[kind]." *)
Definition start_watching (now : Z) (h : Heater) : Heater :=
  set_watch (current_temperature h + watch_increase (type (data h)))
            (now + temp_check_interval (type (data h))) h.

(** Modelled from the spec: [setTarget], whose body is in heater.cpp.
    "set_target(celsius): clamps to [0, maxtemp]; if newly heating upward,
    re-arms the watch window (start_watching)." *)
Definition setTarget (now celsius : Z) (h : Heater) : Heater :=
  let h1 := set_target_temperature (clamp 0 (maxtemp (data h)) celsius) h in
  if isHeating h1 then start_watching now h1 else h1.

(** Modelled from the spec: entering Runaway "immediately calls
    set_fault()". *)
Definition trip_runaway (h : Heater) : Heater :=
  setFault (set_thermal_runaway_state TRRunaway h).

(** Modelled from the spec: the reading is "outside +-hysteresis[kind] of
    target". *)
Definition out_of_band (h : Heater) : bool :=
  temp_hysteresis (type (data h))
    <? Z.abs (current_temperature h - target_temperature h).

(** Modelled from the spec: [thermal_runaway_protection], whose body is in
    heater.cpp (spec section 4.4).
    - Inactive -> FirstHeating "on becoming Active while heating toward a
      target above current temperature", arming the watch window;
    - FirstHeating -> Stable when the reading reaches [watch_target]
      before the deadline, FirstHeating -> Runaway when the deadline
      elapses first;
    - Stable -> Runaway when the reading stays outside the hysteresis band
      for [runaway_count] consecutive ticks, the counter going back to
      zero "the instant it re-enters the band";
    - Runaway is terminal and keeps the heater faulted. *)
Definition thermal_runaway_protection (now : Z) (h : Heater) : Heater :=
  match thermal_runaway_state h with
  | TRInactive =>
      if isActive h && isHeating h
      then set_thermal_runaway_state TRFirstHeating (start_watching now h)
      else h
  | TRFirstHeating =>
      if watch_target_temp h <=? current_temperature h
      then set_thermal_runaway_state TRStable h
      else if watch_next_ms h <=? now then trip_runaway h else h
  | TRStable =>
      if out_of_band h
      then let h1 := set_consecutive_low_temp (consecutive_low_temp h + 1) h in
           if runaway_count <=? consecutive_low_temp h1
           then trip_runaway h1 else h1
      else set_consecutive_low_temp 0 h
  | TRRunaway => setFault h
  end.

(** Modelled from the spec: [get_output], whose body is in heater.cpp
    (spec section 4.3, "Output computation (per tick), in order").  The PID
    controller is external: [pid_out] is what its [compute] returned for
    this tick.  Step 5 (hardware inversion) acts on the duty written to
    the pin, see [hardware_duty], not on [pwm_value]. *)
Definition get_output (now pid_out : Z) (h : Heater) : Heater :=
  if isFault h || negb (isActive h) then set_pwm_value 0 h
  else
    let effective_target :=
      if isIdle h && (idle_timeout_time h <=? now)
      then idle_temperature h else target_temperature h in
    if isUsePid h then set_pwm_value (clamp 0 PWM_MAX pid_out) h
    else if current_temperature h
              <? effective_target - temp_hysteresis (type (data h))
    then set_pwm_value PWM_MAX h
    else if effective_target <=? current_temperature h
    then set_pwm_value 0 h
    else h.

(** Modelled from the spec: "apply hardware-inversion flag if set (invert
    duty before hardware write)". *)
Definition hardware_duty (h : Heater) : Z :=
  if isHWinvert h then PWM_MAX - pwm_value h else pwm_value h.

(** Modelled from the spec: the per-period regulation step, whose body is
    in heater.cpp.  The sampling tick stores the new reading
    ([update_current_temperature]); then "tick(): evaluates min/max
    bounds, advances the Runaway Automaton, computes pwm_value", a reading
    outside [[mintemp, maxtemp]] calling [setFault] "bypassing the runaway
    states entirely". *)
Definition tick (now reading pid_out : Z) (h : Heater) : Heater :=
  let h0 := update_current_temperature reading h in
  let h1 := if tempisrange h0 then thermal_runaway_protection now h0
            else setFault h0 in
  get_output now pid_out h1.

(** The operations a client of the heater issues. *)
Inductive op :=
| OpSetActive (onoff : bool)
| OpSetUsePid (onoff : bool)
| OpSetPidTuned (onoff : bool)
| OpSetHWinvert (onoff : bool)
| OpSetThermalProtection (onoff : bool)
| OpSetPidTuning (onoff : bool)
| OpSetIdle (onoff : bool) (idle_temp : Z)
| OpSetFault
| OpResetFault
| OpSwitchOff
| OpSetTarget (now celsius : Z)
| OpTick (now reading pid_out : Z).

Definition step (o : op) (h : Heater) : Heater :=
  match o with
  | OpSetActive b => setActive b h
  | OpSetUsePid b => setUsePid b h
  | OpSetPidTuned b => setPidTuned b h
  | OpSetHWinvert b => setHWinvert b h
  | OpSetThermalProtection b => setThermalProtection b h
  | OpSetPidTuning b => setPidTuning b h
  | OpSetIdle b t => setIdle b t h
  | OpSetFault => setFault h
  | OpResetFault => ResetFault h
  | OpSwitchOff => SwitchOff h
  | OpSetTarget now c => setTarget now c h
  | OpTick now reading pid_out => tick now reading pid_out h
  end.

(** Operations are applied left to right. *)
Definition run (ops : list op) (h : Heater) : Heater :=
  fold_left (fun s o => step o s) ops h.

End Regulation.

(** The heater objects are globals ([extern Heater hotends[HOTENDS]] ...):
    every member starts at zero and the flag constructor stores
    [all = 0x00].  The kind, the sensor and the temperature limits are the
    heater's configuration, written once at start-up before it is used. *)
Definition zero_Heater (k : HeatertypeEnum) (sens : sensor.sensor_data_t)
                       (lo hi : Z) : Heater :=
  {| data := {| type := k; pin := 0; flag := flagheater_t_ctor; ID := 0;
                mintemp := lo; maxtemp := hi |};
     pid := {| Kp := 0; Ki := 0; Kd := 0 |};
     sensor := sens;
     watch_target_temp := 0; pwm_value := 0; consecutive_low_temp := 0;
     target_temperature := 0; idle_temperature := 0;
     current_temperature := 0; thermal_runaway_state := TRInactive;
     watch_next_ms := 0; idle_timeout_time := 0 |}.

(** The invariant of spec section 3:
    [pwm_value == 0] whenever [!Active || Fault]. *)
Definition output_off_when_inactive (h : Heater) : Prop :=
  isActive h = false \/ isFault h = true -> pwm_value h = 0.

(** Its two halves, and the fact that keeps an unconfigured heater off. *)
Definition fault_off (h : Heater) : Prop :=
  isFault h = true -> pwm_value h = 0.
Definition inactive_off (h : Heater) : Prop :=
  isActive h = false -> pwm_value h = 0.
Definition no_sensor_inactive (h : Heater) : Prop :=
  sensor.type (sensor h) = 0 -> isActive h = false.

(** A heater without sensor keeps its output off. *)
Definition no_sensor_off (h : Heater) : Prop :=
  sensor.type (sensor h) = 0 -> pwm_value h = 0.

(** The operations that write [pwm_value]. *)
Definition writes_output (o : op) : bool :=
  match o with
  | OpSetFault | OpResetFault | OpSwitchOff | OpTick _ _ _ => true
  | _ => false
  end.

(** Whether a bare [setActive(false)] is the most recent of the operations
    that write Active or [pwm_value]: [setActive(false)] raises the mark,
    [setActive(true)] and the operations that write [pwm_value] lower it,
    the others leave it. *)
Definition pending_after (p : bool) (o : op) : bool :=
  match o with
  | OpSetActive onoff => negb onoff
  | _ => if writes_output o then false else p
  end.

Definition deactivation_pending (ops : list op) : bool :=
  fold_left pending_after ops false.

(** The operations that re-arm the runaway automaton by the header's own
    code: [setIdle(true, ...)]. *)
Definition is_setIdle_true (o : op) : bool :=
  match o with
  | OpSetIdle true _ => true
  | _ => false
  end.

(** The operations whose body is in heater.h. *)
Definition inline_op (o : op) : bool :=
  match o with
  | OpSetTarget _ _ | OpTick _ _ _ => false
  | _ => true
  end.

(** The configuration of the scenario in spec section 8: a hotend with a
    sensor, limits 5 and 275, hysteresis 3, watch increase 2, check
    interval 20. *)
Definition scenario_heater : Heater :=
  zero_Heater IS_HOTEND {| sensor.type := 1 |} 5 275.
Definition scenario_interval (k : HeatertypeEnum) : Z := 20.
Definition scenario_hysteresis (k : HeatertypeEnum) : Z := 3.
Definition scenario_increase (k : HeatertypeEnum) : Z := 2.
Definition scenario_count : Z := 20.
Definition scenario_run : list op -> Heater -> Heater :=
  run scenario_interval scenario_hysteresis scenario_increase scenario_count.

(** *** Calls of the inline members of heater.h *)

(** One call of an inline member that changes the heater. *)
Inductive inline_call :=
| CallUpdateTemperature (reading : Z)
| CallSetActive (onoff : bool)
| CallSetUsePid (onoff : bool)
| CallSetPidTuned (onoff : bool)
| CallSetHWinvert (onoff : bool)
| CallSetThermalProtection (onoff : bool)
| CallSetIdle (onoff : bool) (idle_temp : Z)
| CallSetFault
| CallResetFault
| CallSetPidTuning (onoff : bool)
| CallResetFlag
| CallSwitchOff.

Definition call (c : inline_call) (h : Heater) : Heater :=
  match c with
  | CallUpdateTemperature reading => update_current_temperature reading h
  | CallSetActive b => setActive b h
  | CallSetUsePid b => setUsePid b h
  | CallSetPidTuned b => setPidTuned b h
  | CallSetHWinvert b => setHWinvert b h
  | CallSetThermalProtection b => setThermalProtection b h
  | CallSetIdle b t => setIdle b t h
  | CallSetFault => setFault h
  | CallResetFault => ResetFault h
  | CallSetPidTuning b => setPidTuning b h
  | CallResetFlag => resetFlag h
  | CallSwitchOff => SwitchOff h
  end.

(** Calls are made left to right. *)
Definition calls (cs : list inline_call) (h : Heater) : Heater :=
  fold_left (fun s c => call c s) cs h.

(** The two members that store [false] in the Fault flag. *)
Definition clears_fault (c : inline_call) : bool :=
  match c with
  | CallResetFault | CallResetFlag => true
  | _ => false
  end.

(** A setter that stores its argument in the one-bit member [bit] and
    leaves every other member of the heater, flags included, as it was. *)
Definition writes_only_flag (setter : bool -> Heater -> Heater) (bit : Z)
  : Prop :=
  forall (onoff : bool) (h : Heater),
    get_bit bit (flag (data (setter onoff h))) = onoff
    /\ (forall k, k <> bit ->
          get_bit k (flag (data (setter onoff h)))
          = get_bit k (flag (data h)))
    /\ set_flag (flag (data h)) (setter onoff h) = h.

(** An active heater is not faulted and has a sensor. *)
Definition active_is_sound (h : Heater) : Prop :=
  isActive h = true -> isFault h = false /\ sensor.type (sensor h) <> 0.

(** The flag byte fits the [uint8_t] it is stored in. *)
Definition flag_is_uint8 (h : Heater) : Prop :=
  0 <= all (flag (data h)) < 256.

End heater.

(* ===================================================================== *)
(** ** HAL_AVR.h *)
(* ===================================================================== *)

Module HAL_AVR.

(** The part of the AVR the interrupt code touches: the 32 general
    registers, the status register, the two timer interrupt mask
    registers and the data stack.  Return addresses ([call], interrupt
    entry, [ret], [reti]) are kept off this stack. *)
Record machine := Build_machine {
  R      : nat -> Z;
  SREG   : Z;
  TIMSK0 : Z;
  TIMSK1 : Z;
  stack  : list Z
}.

Definition set_R (r : nat) (v : Z) (m : machine) : machine :=
  {| R := fun x => if Nat.eqb x r then v else R m x;
     SREG := SREG m; TIMSK0 := TIMSK0 m; TIMSK1 := TIMSK1 m;
     stack := stack m |}.

Definition set_SREG (v : Z) (m : machine) : machine :=
  {| R := R m; SREG := v; TIMSK0 := TIMSK0 m; TIMSK1 := TIMSK1 m;
     stack := stack m |}.

Definition set_TIMSK0 (v : Z) (m : machine) : machine :=
  {| R := R m; SREG := SREG m; TIMSK0 := v; TIMSK1 := TIMSK1 m;
     stack := stack m |}.

Definition set_TIMSK1 (v : Z) (m : machine) : machine :=
  {| R := R m; SREG := SREG m; TIMSK0 := TIMSK0 m; TIMSK1 := v;
     stack := stack m |}.

Definition set_stack (s : list Z) (m : machine) : machine :=
  {| R := R m; SREG := SREG m; TIMSK0 := TIMSK0 m; TIMSK1 := TIMSK1 m;
     stack := s |}.

(** Status register bits: C Z N V S H T I, from bit 0 up. *)
Definition SREG_Z : Z := 1.
Definition SREG_N : Z := 2.
Definition SREG_V : Z := 3.
Definition SREG_S : Z := 4.
Definition SREG_I : Z := 7.

Definition put (n : Z) (b : bool) (x : Z) : Z :=
  if b then Z.setbit x n else Z.clearbit x n.

(** Global interrupt enable. *)
Definition interrupts_enabled (m : machine) : bool := Z.testbit (SREG m) SREG_I.

Definition cli (m : machine) : machine := set_SREG (Z.clearbit (SREG m) SREG_I) m.
Definition sei (m : machine) : machine := set_SREG (Z.setbit (SREG m) SREG_I) m.

(** *** [class InterruptProtectedBlock] *)

Record InterruptProtectedBlock := Build_IPB { sreg : Z }.

(** [InterruptProtectedBlock(bool later = false) { sreg = SREG; if (!later) cli(); }] *)
Definition IPB_ctor (later : bool) (m : machine)
  : InterruptProtectedBlock * machine :=
  ({| sreg := SREG m |}, if negb later then cli m else m).

(** [protect() { cli(); }] *)
Definition protect (b : InterruptProtectedBlock) (m : machine) : machine :=
  cli m.

(** [unprotect() { SREG = sreg; }] *)
Definition unprotect (b : InterruptProtectedBlock) (m : machine) : machine :=
  set_SREG (sreg b) m.

(** [~InterruptProtectedBlock() { SREG = sreg; }] *)
Definition IPB_dtor (b : InterruptProtectedBlock) (m : machine) : machine :=
  set_SREG (sreg b) m.

(** What the code of the guarded scope can do: call the two public
    members, or run anything else on the machine.  [sreg] is private, so
    nothing in the scope writes it. *)
Inductive scope_step :=
| Protect
| Unprotect
| Other (f : machine -> machine).

Definition scope_exec (b : InterruptProtectedBlock) (s : scope_step)
                      (m : machine) : machine :=
  match s with
  | Protect => protect b m
  | Unprotect => unprotect b m
  | Other f => f m
  end.

(** A scope [{ InterruptProtectedBlock noInts(later); body }]: the
    destructor runs when the scope is left, wherever the body stops. *)
Definition guarded_scope (later : bool) (body : list scope_step)
                         (m : machine) : machine :=
  let '(b, m1) := IPB_ctor later m in
  IPB_dtor b (fold_left (fun s x => scope_exec b x s) body m1).

(** *** The interrupt entry sequences *)

Inductive ioreg := IO_TIMSK0 | IO_TIMSK1.

(** The instructions the two sequences are written in. *)
Inductive instr :=
| PUSH (r : nat)
| POP (r : nat)
| IN_SREG (r : nat)              (* in  r, __SREG__ *)
| OUT_SREG (r : nat)             (* out __SREG__, r *)
| LDS (r : nat) (a : ioreg)
| STS (a : ioreg) (r : nat)
| ANDI (r : nat) (k : Z)
| ORI (r : nat) (k : Z)
| SEI
| CLI
| CLR (r : nat)
| CALL                           (* call ..._vect_bottom *)
| RETI.

(** The low 8 bits of an immediate operand. *)
Definition lo8 (k : Z) : Z := Z.land k 255.

(** [andi], [ori] and [clr] (an [eor]) set N and Z from the result, clear
    V, and make S equal to N; they leave C, H, T and I alone. *)
Definition logic_flags (res : Z) (sr : Z) : Z :=
  let n := Z.testbit res 7 in
  put SREG_S n (put SREG_V false (put SREG_N n (put SREG_Z (res =? 0) sr))).

Definition read_io (a : ioreg) (m : machine) : Z :=
  match a with IO_TIMSK0 => TIMSK0 m | IO_TIMSK1 => TIMSK1 m end.

Definition write_io (a : ioreg) (v : Z) (m : machine) : machine :=
  match a with IO_TIMSK0 => set_TIMSK0 v m | IO_TIMSK1 => set_TIMSK1 v m end.

(** One instruction other than [CALL]; [pop] from an empty stack has no
    defined result. *)
Definition exec_instr (i : instr) (m : machine) : option machine :=
  match i with
  | PUSH r => Some (set_stack (R m r :: stack m) m)
  | POP r =>
      match stack m with
      | v :: s => Some (set_R r v (set_stack s m))
      | [] => None
      end
  | IN_SREG r => Some (set_R r (SREG m) m)
  | OUT_SREG r => Some (set_SREG (R m r) m)
  | LDS r a => Some (set_R r (read_io a m) m)
  | STS a r => Some (write_io a (R m r) m)
  | ANDI r k =>
      let v := Z.land (R m r) (lo8 k) in
      Some (set_SREG (logic_flags v (SREG m)) (set_R r v m))
  | ORI r k =>
      let v := Z.lor (R m r) (lo8 k) in
      Some (set_SREG (logic_flags v (SREG m)) (set_R r v m))
  | SEI => Some (sei m)
  | CLI => Some (cli m)
  | CLR r => Some (set_SREG (logic_flags 0 (SREG m)) (set_R r 0 m))
  | CALL => Some m                 (* the body is run by [exec_traced] *)
  | RETI => Some (sei m)
  end.

(** A trace entry is the state the handler is in just before one of its
    own instructions, or a state passed through inside the called body. *)
Inductive label := At (i : instr) | InBody.

(** The states a body passes through after it is entered, and the state
    it returns in. *)
Definition body_run := machine -> option (list machine * machine).

Definition exec_traced (bottom : body_run) (i : instr) (m : machine)
  : option (list (label * machine) * machine) :=
  match i with
  | CALL =>
      match bottom m with
      | Some (tr, m') => Some (map (fun s => (InBody, s)) tr, m')
      | None => None
      end
  | _ =>
      match exec_instr i m with
      | Some m' => Some ([], m')
      | None => None
      end
  end.

Fixpoint exec_trace (bottom : body_run) (prog : list instr) (m : machine)
  : option (list (label * machine) * machine) :=
  match prog with
  | [] => Some ([], m)
  | i :: rest =>
      match exec_traced bottom i m with
      | Some (inner, m1) =>
          match exec_trace bottom rest m1 with
          | Some (tr, mf) => Some ((At i, m) :: inner ++ tr, mf)
          | None => None
          end
      | None => None
      end
  end.

(** Vectoring to a handler clears the global interrupt enable. *)
Definition irq_entry (m : machine) : machine := cli m.

(** Registers a C function must leave as it found them (avr-gcc:
    r2..r17, r28, r29); the entry sequences push the others themselves. *)
Definition callee_saved (r : nat) : bool :=
  ((2 <=? r) && (r <=? 17) || (r =? 28) || (r =? 29))%nat.

(** A stretch of compiled C code: it returns with the data stack as it
    found it and with the callee-saved registers intact. *)
Definition abi_ok (f : machine -> machine) : Prop :=
  forall m, stack (f m) = stack m
            /\ forall r, callee_saved r = true -> R (f m) r = R m r.

(** A body made of stretches of code, run one after the other. *)
Fixpoint run_code (steps : list (machine -> machine)) (m : machine)
  : list machine * machine :=
  match steps with
  | [] => ([], m)
  | f :: rest =>
      let '(tr, mf) := run_code rest (f m) in (f m :: tr, mf)
  end.

Section Handlers.

(** Bit numbers from avr/io.h: the compare-match-B enable of timer 0 in
    TIMSK0 and the compare-match-A enable of timer 1 in TIMSK1. *)
Variable OCIE0B : Z.
Variable OCIE1A : Z.

(** [(uint8_t)(1<<OCIE0B)], [(uint8_t)(1<<OCIE1A)] *)
Definition msk0 : Z := lo8 (Z.shiftl 1 OCIE0B).
Definition msk1 : Z := lo8 (Z.shiftl 1 OCIE1A).

(** [TEST(TEMP_TIMSK, TEMP_OCIE)], [TEST(STEPPER_TIMSK, STEPPER_OCIE)] *)
Definition TEMP_ISR_ENABLED (m : machine) : bool := Z.testbit (TIMSK0 m) OCIE0B.
Definition STEPPER_ISR_ENABLED (m : machine) : bool := Z.testbit (TIMSK1 m) OCIE1A.

(** [STEPPER_TIMER_ISR]: the body of [TIMER1_COMPA_vect]. *)
Definition STEPPER_TIMER_ISR : list instr :=
  [ PUSH 16;
    IN_SREG 16;
    PUSH 16;
    LDS 16 IO_TIMSK0;
    PUSH 16;
    ANDI 16 (Z.lnot msk0);
    STS IO_TIMSK0 16;
    LDS 16 IO_TIMSK1;
    ANDI 16 (Z.lnot msk1);
    STS IO_TIMSK1 16;
    SEI;
    PUSH 0; PUSH 1; PUSH 18; PUSH 19; PUSH 20; PUSH 21; PUSH 22;
    PUSH 23; PUSH 24; PUSH 25; PUSH 26; PUSH 27; PUSH 30; PUSH 31;
    CLR 1;
    CALL;
    POP 31; POP 30; POP 27; POP 26; POP 25; POP 24; POP 23;
    POP 22; POP 21; POP 20; POP 19; POP 18; POP 1; POP 0;
    CLI;
    ORI 16 msk1;
    STS IO_TIMSK1 16;
    POP 16;
    STS IO_TIMSK0 16;
    POP 16;
    OUT_SREG 16;
    POP 16;
    RETI ].

(** [TEMP_TIMER_ISR]: the body of [TIMER0_COMPB_vect]. *)
Definition TEMP_TIMER_ISR : list instr :=
  [ PUSH 16;
    IN_SREG 16;
    PUSH 16;
    LDS 16 IO_TIMSK0;
    ANDI 16 (Z.lnot msk0);
    STS IO_TIMSK0 16;
    SEI;
    PUSH 0; PUSH 1; PUSH 18; PUSH 19; PUSH 20; PUSH 21; PUSH 22;
    PUSH 23; PUSH 24; PUSH 25; PUSH 26; PUSH 27; PUSH 30; PUSH 31;
    CLR 1;
    CALL;
    POP 31; POP 30; POP 27; POP 26; POP 25; POP 24; POP 23;
    POP 22; POP 21; POP 20; POP 19; POP 18; POP 1; POP 0;
    CLI;
    ORI 16 msk0;
    STS IO_TIMSK0 16;
    POP 16;
    OUT_SREG 16;
    POP 16;
    RETI ].

(** The two sequences, cut at their [call]. *)
Definition stepper_prologue : list instr := firstn 26 STEPPER_TIMER_ISR.
Definition stepper_epilogue : list instr := skipn 27 STEPPER_TIMER_ISR.
Definition temp_prologue : list instr := firstn 22 TEMP_TIMER_ISR.
Definition temp_epilogue : list instr := skipn 23 TEMP_TIMER_ISR.

(** What [andi r16, ~msk0] leaves of a TIMSK0 value. *)
Definition temp_masked (v : Z) : Z := Z.land v (lo8 (Z.lnot msk0)).

(** The motion handler, entered from state [m], around a body [sb]. *)
Definition stepper_handler (sb : list (machine -> machine)) (m : machine)
  : option (list (label * machine) * machine) :=
  exec_trace (fun x => Some (run_code sb x)) STEPPER_TIMER_ISR (irq_entry m).

(** What happens while the temperature handler's body runs: a stretch of
    its own code, or the motion timer firing.  The motion handler is
    entered only if interrupts are enabled and its own enable bit is set;
    all the states it passes through are states inside the temperature
    body. *)
Inductive tstep :=
| Code (f : machine -> machine)
| StepperIRQ (sb : list (machine -> machine)).

Fixpoint run_temp_body (tb : list tstep) (m : machine)
  : option (list machine * machine) :=
  match tb with
  | [] => Some ([], m)
  | Code f :: rest =>
      match run_temp_body rest (f m) with
      | Some (tr, mf) => Some (f m :: tr, mf)
      | None => None
      end
  | StepperIRQ sb :: rest =>
      if interrupts_enabled m && STEPPER_ISR_ENABLED m then
        match stepper_handler sb m with
        | Some (tr1, m1) =>
            match run_temp_body rest m1 with
            | Some (tr, mf) => Some (map snd tr1 ++ m1 :: tr, mf)
            | None => None
            end
        | None => None
        end
      else run_temp_body rest m
  end.

(** The temperature handler, entered from state [m], around a body [tb]. *)
Definition temp_handler (tb : list tstep) (m : machine)
  : option (list (label * machine) * machine) :=
  exec_trace (run_temp_body tb) TEMP_TIMER_ISR (irq_entry m).

(** The code of a temperature body, and of the motion bodies that preempt
    it, follows the calling convention and does not write TIMSK0. *)
Definition keeps_TIMSK0 (f : machine -> machine) : Prop :=
  abi_ok f /\ forall m, TIMSK0 (f m) = TIMSK0 m.

Definition tstep_ok (s : tstep) : Prop :=
  match s with
  | Code f => keeps_TIMSK0 f
  | StepperIRQ sb => Forall keeps_TIMSK0 sb
  end.

(** A trace entry of an entry or exit sequence: it is at one of the
    sequence's own instructions, every state satisfies [P], a store to a
    timer mask register happens with interrupts disabled, and the state
    at [reti] satisfies [Q]. *)
Definition entry_ok (P Q : machine -> Prop) (e : label * machine) : Prop :=
  match fst e with
  | At CALL | InBody => False
  | At RETI => Q (snd e) /\ P (snd e)
  | At (STS _ _) => interrupts_enabled (snd e) = false /\ P (snd e)
  | At _ => P (snd e)
  end.

End Handlers.

(** A machine state and two bodies to run the handlers on (ATmega2560:
    OCIE0B is bit 2 of TIMSK0, OCIE1A is bit 1 of TIMSK1).  The motion body
    overwrites TIMSK0 and SREG; the temperature body enables the motion
    interrupt, is preempted by it, and carries on. *)
Definition example_machine : machine :=
  {| R := fun r => Z.of_nat r; SREG := 130; TIMSK0 := 5; TIMSK1 := 0;
     stack := [42] |}.

Definition example_stepper_body : list (machine -> machine) :=
  [ fun m => set_TIMSK0 255 (set_SREG 0 m) ].

Definition example_temp_body : list tstep :=
  [ Code (fun m => set_TIMSK1 2 m);
    StepperIRQ [ fun m => set_R 24 9 m ];
    Code (fun m => set_R 18 1 m) ].

(** *** [CRITICAL_SECTION_START] and [CRITICAL_SECTION_END] *)

(** [unsigned char _sreg = SREG; cli();]: the saved value and the machine. *)
Definition CRITICAL_SECTION_START (m : machine) : Z * machine :=
  (SREG m, cli m).

(** [SREG = _sreg;] *)
Definition CRITICAL_SECTION_END (_sreg : Z) (m : machine) : machine :=
  set_SREG _sreg m.

(** [CRITICAL_SECTION_START body CRITICAL_SECTION_END], the body being
    any code that does not assign the local [_sreg]. *)
Definition critical_section (body : machine -> machine) (m : machine)
  : machine :=
  let '(_sreg, m1) := CRITICAL_SECTION_START m in
  CRITICAL_SECTION_END _sreg (body m1).

(** *** Processor-level delays *)

Definition uint8 (x : Z) : Z := x mod 256.
Definition uint16 (x : Z) : Z := x mod 65536.

(** The loop of [HAL_delay_4cycles]: ["1: dec cnt; nop; brne 1b"] on an
    8-bit register.  [dec] wraps at zero and sets the Z flag when the
    result is zero; [brne] goes round again while it is not.  The result
    is the number of times the loop body ran. *)
Fixpoint delay_4cycles_loop (fuel : nat) (cnt : Z) (ran : Z) : option Z :=
  match fuel with
  | O => None
  | S f =>
      let cnt' := uint8 (cnt - 1) in
      if cnt' =? 0 then Some (ran + 1)
      else delay_4cycles_loop f cnt' (ran + 1)
  end.

(** [HAL_delay_4cycles(uint8_t cy)] *)
Definition HAL_delay_4cycles (cy : Z) : option Z :=
  delay_4cycles_loop 256 (uint8 cy) 0.

Definition MAXNOPS : Z := 4.

(** [switch (cycles) { case 4: nop(); case 3: nop(); case 2: nop();
    case 1: nop(); }]: the cases fall through, so the number of [nop]s is
    the case entered. *)
Definition nops_switch4 (c : Z) : Z :=
  if c =? 4 then 4 else if c =? 3 then 3 else if c =? 2 then 2
  else if c =? 1 then 1 else 0.

(** [switch (rem) { case 3: nop(); case 2: nop(); case 1: nop(); }] *)
Definition nops_switch3 (c : Z) : Z :=
  if c =? 3 then 3 else if c =? 2 then 2 else if c =? 1 then 1 else 0.

(** [HAL_delay_cycles(uint16_t cycles)]; [constant_p] is what
    [__builtin_constant_p(cycles)] yields at the call site.  The result
    is the number of single [nop]s executed and the number of times the
    loop of [HAL_delay_4cycles] ran. *)
Definition HAL_delay_cycles (constant_p : bool) (cycles : Z)
  : option (Z * Z) :=
  let cycles := uint16 cycles in
  if constant_p then
    if cycles <=? MAXNOPS then Some (nops_switch4 cycles, 0)
    else
      let rem := cycles mod MAXNOPS in
      let n := nops_switch3 rem in
      let cycles1 := cycles / MAXNOPS in
      if cycles1 =? 0 then Some (n, 0)
      else match HAL_delay_4cycles cycles1 with
           | Some l => Some (n, l)
           | None => None
           end
  else
    match HAL_delay_4cycles (cycles / 4) with
    | Some l => Some (0, l)
    | None => None
    end.

(** What [HAL::delayMilliseconds] calls, in order. *)
Inductive delay_event := Delay (ms : Z) | WatchdogReset.

(** [while (delayMs > 0) { del = delayMs > 100 ? 100 : delayMs;
    delay(del); delayMs -= del; watchdog.reset(); }] *)
Fixpoint delayMilliseconds_loop (fuel : nat) (delayMs : Z)
  : option (list delay_event) :=
  match fuel with
  | O => None
  | S f =>
      if 0 <? delayMs then
        let del := if 100 <? delayMs then 100 else delayMs in
        match delayMilliseconds_loop f (uint16 (delayMs - del)) with
        | Some tr => Some (Delay del :: WatchdogReset :: tr)
        | None => None
        end
      else Some []
  end.

(** [HAL::delayMilliseconds(uint16_t delayMs)]; every round takes at
    least one millisecond off, so [delayMs] rounds and the final test
    are enough. *)
Definition delayMilliseconds (delayMs : Z) : option (list delay_event) :=
  let d := uint16 delayMs in
  delayMilliseconds_loop (S (Z.to_nat d)) d.

(** The lengths of the waits of a delay of [d] ms: as many of 100 ms as
    fit, then the rest if there is one. *)
Definition delay_chunks (d : Z) : list Z :=
  repeat 100 (Z.to_nat (d / 100))
  ++ (if d mod 100 =? 0 then [] else [d mod 100]).

Definition delay_events (chunks : list Z) : list delay_event :=
  flat_map (fun c => [Delay c; WatchdogReset]) chunks.

(** *** Registers and the handlers *)

(** The registers the entry sequences push and pop themselves. *)
Definition saved_by_entry (r : nat) : bool :=
  ((r =? 0) || (r =? 1) || (r =? 16) || ((18 <=? r) && (r <=? 27))
   || (r =? 30) || (r =? 31))%nat.

(** Bodies that write the timer mask registers themselves: a motion body
    that clears TIMSK1, a temperature body that overwrites TIMSK0. *)
Definition example_stepper_body_masking : list (machine -> machine) :=
  [ fun m => set_TIMSK1 0 m ].

Definition example_temp_body_writing : list tstep :=
  [ Code (fun m => set_TIMSK0 255 m);
    StepperIRQ [ fun m => set_TIMSK1 0 m ] ].

(** A temperature body whose code, and the code of the motion bodies
    that preempt it, follows the calling convention. *)
Definition tstep_abi (s : tstep) : Prop :=
  match s with
  | Code f => abi_ok f
  | StepperIRQ sb => Forall abi_ok sb
  end.

End HAL_AVR.

(* ===================================================================== *)
(** ** Properties of the heater object *)
(* ===================================================================== *)

Import heater.

(** *** Reading a flag after an assignment *)

Lemma get_bit_put_bit n m b f :
  0 <= n ->
  get_bit m (put_bit n b f) = if n =? m then b else get_bit m f.
Proof.
  intros Hn. unfold get_bit, put_bit. cbn [all].
  destruct b.
  - rewrite Z.setbit_eqb by assumption.
    destruct (n =? m); reflexivity.
  - rewrite Z.clearbit_eqb.
    destruct (n =? m); cbn; [apply andb_false_r | apply andb_true_r].
Qed.

Lemma flag_assign_flag n b h :
  flag (data (assign_flag n b h)) = put_bit n b (flag (data h)).
Proof. reflexivity. Qed.

(** Bitwise comparison of two flag bytes built by [put_bit]. *)
Ltac flag_bits k :=
  unfold put_bit; cbn [all]; f_equal;
  apply Z.bits_inj'; intros k ?;
  repeat match goal with
         | |- context [if ?b then _ else _] => destruct b
         end;
  repeat ((rewrite Z.setbit_eqb by assumption) || rewrite Z.clearbit_eqb).

Lemma put_bit_twice n b c f :
  0 <= n -> put_bit n b (put_bit n c f) = put_bit n b f.
Proof.
  intros Hn. flag_bits k;
    destruct (n =? k), (Z.testbit (all f) k); reflexivity.
Qed.

Lemma put_bit_swap n m b c f :
  0 <= n -> 0 <= m -> n <> m ->
  put_bit n b (put_bit m c (put_bit n b f)) = put_bit m c (put_bit n b f).
Proof.
  intros Hn Hm Hne. flag_bits k;
    destruct (Z.eqb_spec n k), (Z.eqb_spec m k), (Z.testbit (all f) k);
    try reflexivity; lia.
Qed.

(** *** Assignments to different members commute *)

Lemma flag_set_flag f h : flag (data (set_flag f h)) = f.
Proof. reflexivity. Qed.

Lemma flag_set_pwm_value v h : flag (data (set_pwm_value v h)) = flag (data h).
Proof. reflexivity. Qed.

Lemma set_flag_set_flag f g h : set_flag f (set_flag g h) = set_flag f h.
Proof. reflexivity. Qed.

Lemma set_pwm_value_set_flag v f h :
  set_pwm_value v (set_flag f h) = set_flag f (set_pwm_value v h).
Proof. reflexivity. Qed.

Lemma set_pwm_value_twice v w h :
  set_pwm_value v (set_pwm_value w h) = set_pwm_value v h.
Proof. reflexivity. Qed.

Lemma flag_set_target_temperature v h :
  flag (data (set_target_temperature v h)) = flag (data h).
Proof. reflexivity. Qed.

(** Reads a flag through a chain of assignments. *)
Ltac read_flag :=
  repeat (rewrite flag_assign_flag || rewrite flag_set_flag
          || rewrite flag_set_pwm_value
          || rewrite flag_set_target_temperature
          || (rewrite get_bit_put_bit by (cbv; discriminate)));
  try reflexivity.

(** [setActive(false)] is the plain assignment [Active = false]. *)
Lemma setActive_false h : setActive false h = assign_flag Active_bit false h.
Proof.
  unfold setActive. rewrite andb_false_r. reflexivity.
Qed.

(** The flags after [setActive]. *)
Lemma isActive_setActive onoff h :
  isActive (setActive onoff h)
  = negb (isFault h) && negb (sensor.type (sensor h) =? 0) && onoff.
Proof.
  unfold setActive.
  destruct (negb (isFault h) && negb (sensor.type (sensor h) =? 0) && onoff);
    unfold isActive, Active; rewrite flag_assign_flag, get_bit_put_bit;
    reflexivity || (unfold Active_bit; lia).
Qed.

Lemma isFault_setActive onoff h : isFault (setActive onoff h) = isFault h.
Proof.
  unfold setActive.
  destruct (negb (isFault h) && negb (sensor.type (sensor h) =? 0) && onoff);
    unfold isFault, Fault; rewrite flag_assign_flag, get_bit_put_bit;
    reflexivity || (unfold Active_bit; lia).
Qed.

Lemma setActive_frame onoff h :
  pwm_value (setActive onoff h) = pwm_value h
  /\ target_temperature (setActive onoff h) = target_temperature h
  /\ idle_temperature (setActive onoff h) = idle_temperature h
  /\ thermal_runaway_state (setActive onoff h) = thermal_runaway_state h
  /\ sensor (setActive onoff h) = sensor h.
Proof.
  unfold setActive.
  destruct (negb (isFault h) && negb (sensor.type (sensor h) =? 0) && onoff);
    repeat split; reflexivity.
Qed.

(** C2.  [setFault()] leaves [pwm_value == 0], [Active == false] and
    [Fault == true] whatever the heater state was, and calling it a second
    time changes nothing in the whole heater object. *)
Theorem C2_setFault_establishes_and_idempotent :
  forall h : Heater,
    pwm_value (setFault h) = 0
    /\ isActive (setFault h) = false
    /\ isFault (setFault h) = true
    /\ setFault (setFault h) = setFault h.
Proof.
  intros h. unfold setFault. rewrite !setActive_false.
  repeat split.
  - unfold isActive, Active.
    read_flag.
  - unfold isFault, Fault.
    read_flag.
  - unfold assign_flag.
    rewrite !flag_set_flag, !flag_set_pwm_value, !set_flag_set_flag.
    rewrite !set_pwm_value_set_flag, set_pwm_value_twice, !flag_set_flag.
    rewrite !set_flag_set_flag. f_equal.
    rewrite (put_bit_swap Active_bit Fault_bit false true)
      by (cbv; discriminate).
    apply put_bit_twice. cbv; discriminate.
Qed.

(** C3.  [ResetFault()] always ends with [Fault == false],
    [Active == false], [target_temperature == 0] and [pwm_value == 0]: the
    fault is cleared and the heater is left switched off. *)
Theorem C3_ResetFault_switches_off :
  forall h : Heater,
    isFault (ResetFault h) = false
    /\ isActive (ResetFault h) = false
    /\ target_temperature (ResetFault h) = 0
    /\ pwm_value (ResetFault h) = 0.
Proof.
  intros h. unfold ResetFault, SwitchOff. rewrite setActive_false.
  repeat split.
  - unfold isFault, Fault.
    read_flag.
  - unfold isActive, Active.
    read_flag.
Qed.

(** C4.  After [setActive(onoff)] the Active flag is true exactly when
    [onoff] is true, Fault is false and a sensor is configured
    ([sensor.type != 0]); in every other case it is false. *)
Theorem C4_setActive_guard :
  forall (onoff : bool) (h : Heater),
    (isActive (setActive onoff h) = true
     <-> onoff = true /\ isFault h = false /\ sensor.type (sensor h) <> 0)
    /\ isActive (setActive onoff h)
       = onoff && negb (isFault h) && negb (sensor.type (sensor h) =? 0).
Proof.
  intros onoff h. rewrite isActive_setActive.
  destruct (Z.eqb_spec (sensor.type (sensor h)) 0) as [E | E];
    destruct (isFault h), onoff; cbn; split;
    try reflexivity;
    try (split; [discriminate | intros (A & B & C); congruence]);
    split; [intros _; repeat split; congruence | reflexivity].
Qed.

(** C9.  [setIdle(onoff, idle_temp)] stores [idle_temp] in
    [idle_temperature] whatever [onoff] is; [setIdle(false)] with the
    default argument therefore stores 0; and [setIdle(false, ...)] leaves
    the thermal runaway state as it was. *)
Theorem C9_setIdle_overwrites_idle_temperature :
  forall (onoff : bool) (idle_temp : Z) (h : Heater),
    idle_temperature (setIdle onoff idle_temp h) = idle_temp
    /\ idle_temperature (setIdle_default false h) = 0
    /\ thermal_runaway_state (setIdle false idle_temp h)
       = thermal_runaway_state h.
Proof.
  intros onoff idle_temp h. repeat split.
  destruct onoff; reflexivity.
Qed.

(** C10.  [resetFlag()] clears the eight flags at once and changes no
    other member: putting the old flag byte back gives the old heater
    object.  In particular [pwm_value] and [target_temperature] stay as
    they were, where [ResetFault()] sets both to 0. *)
Theorem C10_resetFlag_clears_flags_only :
  forall h : Heater,
    (isActive (resetFlag h) = false /\ isUsePid (resetFlag h) = false
     /\ isPidTuned (resetFlag h) = false /\ isHWinvert (resetFlag h) = false
     /\ isThermalProtection (resetFlag h) = false
     /\ isIdle (resetFlag h) = false /\ isFault (resetFlag h) = false
     /\ isPidTuning (resetFlag h) = false)
    /\ set_flag (flag (data h)) (resetFlag h) = h
    /\ pwm_value (resetFlag h) = pwm_value h
    /\ target_temperature (resetFlag h) = target_temperature h
    /\ pwm_value (ResetFault h) = 0
    /\ target_temperature (ResetFault h) = 0.
Proof.
  intros h. split; [repeat split | split; [|repeat split]].
  - destruct h as [[k p f i lo hi] pd sn wt pw cl tt it ct tr wn io].
    reflexivity.
  - unfold ResetFault, SwitchOff. rewrite setActive_false. reflexivity.
  - unfold ResetFault, SwitchOff. rewrite setActive_false. reflexivity.
Qed.

(** *** Runs of operations *)

Section HeaterRuns.

Variable temp_check_interval : HeatertypeEnum -> Z.
Variable temp_hysteresis     : HeatertypeEnum -> Z.
Variable watch_increase      : HeatertypeEnum -> Z.
Variable runaway_count       : Z.

Local Abbreviation setTarget := (setTarget temp_check_interval watch_increase).
Local Abbreviation protection :=
  (thermal_runaway_protection temp_check_interval temp_hysteresis
                              watch_increase runaway_count).
Local Abbreviation get_output := (get_output temp_hysteresis).
Local Abbreviation tick :=
  (tick temp_check_interval temp_hysteresis watch_increase runaway_count).
Local Abbreviation step :=
  (step temp_check_interval temp_hysteresis watch_increase runaway_count).
Local Abbreviation run :=
  (run temp_check_interval temp_hysteresis watch_increase runaway_count).

Lemma output_off_split h :
  output_off_when_inactive h <-> inactive_off h /\ fault_off h.
Proof.
  unfold output_off_when_inactive, inactive_off, fault_off. tauto.
Qed.

Lemma view_assign_other n b h :
  0 <= n -> n <> Active_bit -> n <> Fault_bit ->
  isActive (assign_flag n b h) = isActive h
  /\ isFault (assign_flag n b h) = isFault h.
Proof.
  intros Hn Ha Hf. unfold isActive, isFault, Active, Fault.
  rewrite flag_assign_flag, !get_bit_put_bit by assumption.
  destruct (Z.eqb_spec n Active_bit), (Z.eqb_spec n Fault_bit);
    try contradiction. split; reflexivity.
Qed.

(** The setters of the five flags other than Active and Fault. *)
Ltac other_flag h :=
  unfold setUsePid, setPidTuned, setHWinvert, setThermalProtection,
         setPidTuning;
  match goal with
  | |- context [assign_flag ?n ?b h] =>
      let A := fresh "A" in
      let F := fresh "F" in
      destruct (view_assign_other n b h) as (A & F);
      [cbv; discriminate ..|]; rewrite ?A, ?F
  end.

Lemma view_setFault h :
  isActive (setFault h) = false /\ isFault (setFault h) = true
  /\ pwm_value (setFault h) = 0 /\ sensor (setFault h) = sensor h
  /\ thermal_runaway_state (setFault h) = thermal_runaway_state h.
Proof.
  unfold setFault. rewrite setActive_false.
  unfold isActive, isFault, Active, Fault.
  repeat split; read_flag.
Qed.

Lemma view_SwitchOff h :
  isActive (SwitchOff h) = false /\ isFault (SwitchOff h) = isFault h
  /\ pwm_value (SwitchOff h) = 0 /\ sensor (SwitchOff h) = sensor h
  /\ thermal_runaway_state (SwitchOff h) = thermal_runaway_state h.
Proof.
  unfold SwitchOff. rewrite setActive_false.
  unfold isActive, isFault, Active, Fault.
  repeat split; read_flag.
Qed.

Lemma view_ResetFault h :
  isActive (ResetFault h) = false /\ isFault (ResetFault h) = false
  /\ pwm_value (ResetFault h) = 0 /\ sensor (ResetFault h) = sensor h
  /\ thermal_runaway_state (ResetFault h) = thermal_runaway_state h.
Proof.
  unfold ResetFault.
  destruct (view_SwitchOff (assign_flag Fault_bit false h))
    as (A & F & P & S & T).
  rewrite A, F, P, S, T. repeat split.
  unfold isFault, Fault.
  rewrite flag_assign_flag, get_bit_put_bit by (cbv; discriminate).
  reflexivity.
Qed.

Lemma view_setIdle b t h :
  isActive (setIdle b t h) = isActive h /\ isFault (setIdle b t h) = isFault h
  /\ pwm_value (setIdle b t h) = pwm_value h
  /\ sensor (setIdle b t h) = sensor h.
Proof.
  destruct (view_assign_other Idle_bit b h) as (A & F);
    try (cbv; discriminate).
  unfold setIdle. destruct b; repeat split; assumption.
Qed.

Lemma view_setTarget now c h :
  isActive (setTarget now c h) = isActive h
  /\ isFault (setTarget now c h) = isFault h
  /\ pwm_value (setTarget now c h) = pwm_value h
  /\ sensor (setTarget now c h) = sensor h
  /\ thermal_runaway_state (setTarget now c h) = thermal_runaway_state h.
Proof.
  unfold heater.setTarget.
  destruct (isHeating _); repeat split.
Qed.

(** The automaton either leaves flags and output alone or faults. *)
Lemma view_protection now h :
  (isActive (protection now h) = isActive h
   /\ isFault (protection now h) = isFault h)
  \/ (isActive (protection now h) = false
      /\ isFault (protection now h) = true).
Proof.
  unfold thermal_runaway_protection, trip_runaway.
  destruct (thermal_runaway_state h).
  - destruct (isActive h && isHeating h); left; split; reflexivity.
  - destruct (watch_target_temp h <=? current_temperature h);
      [left; split; reflexivity|].
    destruct (watch_next_ms h <=? now); [right | left; split; reflexivity].
    match goal with |- context [setFault ?x] =>
      destruct (view_setFault x) as (A & F & _) end.
    split; assumption.
  - destruct (out_of_band temp_hysteresis h);
      [|left; split; reflexivity].
    destruct (runaway_count <=? _); [right | left; split; reflexivity].
    match goal with |- context [setFault ?x] =>
      destruct (view_setFault x) as (A & F & _) end.
    split; assumption.
  - right. destruct (view_setFault h) as (A & F & _). split; assumption.
Qed.

Lemma sensor_protection now h : sensor (protection now h) = sensor h.
Proof.
  unfold thermal_runaway_protection, trip_runaway.
  destruct (thermal_runaway_state h).
  - destruct (isActive h && isHeating h); reflexivity.
  - destruct (watch_target_temp h <=? current_temperature h);
      [reflexivity|].
    destruct (watch_next_ms h <=? now); [|reflexivity].
    match goal with |- context [setFault ?x] =>
      destruct (view_setFault x) as (_ & _ & _ & S & _) end.
    rewrite S. reflexivity.
  - destruct (out_of_band temp_hysteresis h); [|reflexivity].
    destruct (runaway_count <=? _); [|reflexivity].
    match goal with |- context [setFault ?x] =>
      destruct (view_setFault x) as (_ & _ & _ & S & _) end.
    rewrite S. reflexivity.
  - apply view_setFault.
Qed.

Lemma view_get_output now p h :
  isActive (get_output now p h) = isActive h
  /\ isFault (get_output now p h) = isFault h
  /\ sensor (get_output now p h) = sensor h
  /\ thermal_runaway_state (get_output now p h) = thermal_runaway_state h
  /\ (isActive h = false \/ isFault h = true ->
      pwm_value (get_output now p h) = 0).
Proof.
  unfold heater.get_output.
  destruct (isFault h) eqn:F, (isActive h) eqn:A; cbn [orb negb];
    try (repeat split; assumption).
  assert (V : forall v, isActive (set_pwm_value v h) = true
                        /\ isFault (set_pwm_value v h) = false)
    by (intros v; split; assumption).
  repeat split;
    try (destruct (isUsePid h); [apply V || reflexivity|];
         destruct (current_temperature h <? _); [apply V || reflexivity|];
         destruct (_ <=? current_temperature h);
         apply V || assumption || reflexivity).
  intros [H | H]; discriminate.
Qed.

Lemma view_tick now reading p h :
  let r := tick now reading p h in
  sensor r = sensor h
  /\ (isActive r = false \/ isFault r = true -> pwm_value r = 0)
  /\ (isActive h = false -> isActive r = false).
Proof.
  unfold heater.tick. cbv zeta.
  set (h0 := update_current_temperature reading h).
  assert (E0 : isActive h0 = isActive h /\ sensor h0 = sensor h)
    by (split; reflexivity).
  destruct E0 as (A0 & S0).
  set (h1 := if tempisrange h0 then _ else _).
  assert (H1 : sensor h1 = sensor h
               /\ (isActive h = false -> isActive h1 = false)).
  { subst h1. destruct (tempisrange h0).
    - rewrite sensor_protection. split; [assumption|].
      intros Ha. destruct (view_protection now h0) as [(A & _) | (A & _)];
        rewrite A; congruence.
    - destruct (view_setFault h0) as (A & _ & _ & S & _).
      rewrite A, S. split; [assumption | reflexivity]. }
  destruct H1 as (S1 & A1).
  destruct (view_get_output now p h1) as (A & F & S & _ & P).
  rewrite A, F, S. repeat split; auto.
Qed.

(** Every operation keeps the sensor configuration. *)
Lemma step_sensor o h : sensor (step o h) = sensor h.
Proof.
  destruct o; cbn [heater.step]; try reflexivity.
  - apply setActive_frame.
  - apply view_setIdle.
  - apply view_setFault.
  - apply view_ResetFault.
  - apply view_SwitchOff.
  - apply view_setTarget.
  - apply (view_tick now reading pid_out h).
Qed.

(** Every operation keeps "a faulted heater has no output". *)
Lemma step_fault_off o h : fault_off h -> fault_off (step o h).
Proof.
  unfold fault_off. intros J.
  destruct o; cbn [heater.step]; try solve [other_flag h; exact J].
  - rewrite isFault_setActive.
    destruct (setActive_frame onoff h) as (P & _). rewrite P. exact J.
  - destruct (view_setIdle onoff idle_temp h) as (_ & F & P & _).
    rewrite F, P. exact J.
  - intros _. apply view_setFault.
  - intros _. apply view_ResetFault.
  - intros _. apply view_SwitchOff.
  - destruct (view_setTarget now celsius h) as (_ & F & P & _).
    rewrite F, P. exact J.
  - intros F. destruct (view_tick now reading pid_out h) as (_ & P & _).
    apply P. right. exact F.
Qed.

(** Without a sensor the heater never becomes active. *)
Lemma step_no_sensor_inactive o h :
  no_sensor_inactive h -> no_sensor_inactive (step o h).
Proof.
  unfold no_sensor_inactive. intros K. rewrite step_sensor. intros S.
  specialize (K S).
  destruct o; cbn [heater.step]; try solve [other_flag h; exact K].
  - rewrite isActive_setActive, S, Z.eqb_refl. cbn [negb].
    rewrite andb_false_r. reflexivity.
  - destruct (view_setIdle onoff idle_temp h) as (A & _).
    rewrite A. exact K.
  - apply view_setFault.
  - apply view_ResetFault.
  - apply view_SwitchOff.
  - destruct (view_setTarget now celsius h) as (A & _).
    rewrite A. exact K.
  - destruct (view_tick now reading pid_out h) as (_ & _ & A).
    apply A. exact K.
Qed.

(** Every operation except the bare [setActive(false)] keeps "an inactive
    heater has no output". *)
Lemma step_inactive_off o h :
  o <> OpSetActive false ->
  fault_off h -> no_sensor_inactive h -> inactive_off h ->
  inactive_off (step o h).
Proof.
  unfold fault_off, no_sensor_inactive, inactive_off. intros Ho J K I.
  destruct o; cbn [heater.step]; try solve [other_flag h; exact I].
  - destruct onoff; [|congruence].
    rewrite isActive_setActive.
    destruct (setActive_frame true h) as (P & _). rewrite P.
    rewrite andb_true_r. intros H.
    apply andb_false_iff in H. destruct H as [H | H].
    + apply J. destruct (isFault h); [reflexivity | discriminate].
    + apply I, K. apply Z.eqb_eq.
      destruct (sensor.type (sensor h) =? 0); [reflexivity | discriminate].
  - destruct (view_setIdle onoff idle_temp h) as (A & _ & P & _).
    rewrite A, P. exact I.
  - intros _. apply view_setFault.
  - intros _. apply view_ResetFault.
  - intros _. apply view_SwitchOff.
  - destruct (view_setTarget now celsius h) as (A & _ & P & _).
    rewrite A, P. exact I.
  - intros A. destruct (view_tick now reading pid_out h) as (_ & P & _).
    apply P. left. exact A.
Qed.

Lemma run_snoc ops o h : run (ops ++ [o]) h = step o (run ops h).
Proof. unfold heater.run. rewrite fold_left_app. reflexivity. Qed.

Lemma run_sensor ops h : sensor (run ops h) = sensor h.
Proof.
  induction ops as [|o ops IH] using rev_ind; [reflexivity|].
  rewrite run_snoc, step_sensor. exact IH.
Qed.

(** The operations that write [pwm_value] leave it at zero for an inactive
    or faulted heater, from any state. *)
Lemma writes_output_restores o h :
  writes_output o = true -> output_off_when_inactive (step o h).
Proof.
  unfold output_off_when_inactive.
  destruct o; cbn [writes_output heater.step]; try discriminate; intros _ H.
  - apply view_setFault.
  - apply view_ResetFault.
  - apply view_SwitchOff.
  - destruct (view_tick now reading pid_out h) as (_ & P & _). apply P, H.
Qed.

(** Every operation keeps the output of a heater without sensor off. *)
Lemma step_no_sensor_off o h :
  no_sensor_inactive h -> no_sensor_off h -> no_sensor_off (step o h).
Proof.
  unfold no_sensor_inactive, no_sensor_off. intros K L.
  rewrite step_sensor. intros S. specialize (K S). specialize (L S).
  destruct (writes_output o) eqn:W.
  - apply (writes_output_restores o h W). left.
    apply (step_no_sensor_inactive o h); [intros _; exact K|].
    rewrite step_sensor. exact S.
  - destruct o; try discriminate W; cbn [heater.step]; try exact L.
    + destruct (setActive_frame onoff h) as (P & _). rewrite P. exact L.
    + destruct (view_setIdle onoff idle_temp h) as (_ & _ & P & _).
      rewrite P. exact L.
    + destruct (view_setTarget now celsius h) as (_ & _ & P & _).
      rewrite P. exact L.
Qed.

(** After [setActive(true)] an inactive heater has no output, whatever
    came before: the call fails only on a fault or without a sensor. *)
Lemma setActive_true_inactive_off h :
  fault_off h -> no_sensor_off h -> inactive_off (setActive true h).
Proof.
  unfold fault_off, no_sensor_off, inactive_off. intros J L.
  rewrite isActive_setActive.
  destruct (setActive_frame true h) as (P & _). rewrite P.
  rewrite andb_true_r. intros H.
  apply andb_false_iff in H. destruct H as [H | H].
  - apply J. destruct (isFault h); [reflexivity | discriminate].
  - apply L. apply Z.eqb_eq.
    destruct (sensor.type (sensor h) =? 0); [reflexivity | discriminate].
Qed.

Lemma deactivation_pending_snoc ops o :
  deactivation_pending (ops ++ [o])
  = pending_after (deactivation_pending ops) o.
Proof. unfold deactivation_pending. rewrite fold_left_app. reflexivity. Qed.

(** What holds along every run from a state where it holds. *)
Lemma run_invariants ops h :
  fault_off h -> no_sensor_inactive h -> no_sensor_off h -> inactive_off h ->
  fault_off (run ops h) /\ no_sensor_inactive (run ops h)
  /\ no_sensor_off (run ops h)
  /\ (deactivation_pending ops = false -> inactive_off (run ops h)).
Proof.
  intros J K L I.
  induction ops as [|o ops IH] using rev_ind.
  - repeat split; try assumption. intros _. exact I.
  - destruct IH as (Js & Ks & Ls & Is).
    rewrite run_snoc, deactivation_pending_snoc.
    split; [apply step_fault_off, Js|].
    split; [apply step_no_sensor_inactive, Ks|].
    split; [apply step_no_sensor_off; assumption|].
    intros P.
    destruct (writes_output o) eqn:W.
    { apply output_off_split. apply writes_output_restores, W. }
    destruct o; try discriminate W; cbn [pending_after writes_output] in P;
      try (apply step_inactive_off; [discriminate | auto ..]).
    destruct onoff; [|discriminate P].
    cbn [heater.step]. apply setActive_true_inactive_off; assumption.
Qed.

Lemma zero_Heater_start k sens lo hi :
  fault_off (zero_Heater k sens lo hi)
  /\ no_sensor_inactive (zero_Heater k sens lo hi)
  /\ no_sensor_off (zero_Heater k sens lo hi)
  /\ inactive_off (zero_Heater k sens lo hi).
Proof. repeat split. Qed.

(** C1 (amended).  Take the zero-initialized heater object of any kind,
    sensor and temperature limits, and any sequence [ops] of operations;
    let [s] be the state it leads to.  Then
    - [pwm_value == 0] whenever [Fault == true];
    - [pwm_value == 0] whenever [Active == false || Fault == true], unless
      the most recent of the [setActive], [setFault], [ResetFault],
      [SwitchOff] and tick operations in [ops] is a bare
      [setActive(false)];
    - a heater without sensor ([sensor.type == 0]) is never active and
      keeps [pwm_value == 0]. *)
Theorem C1_output_off_reachable :
  forall k sens lo hi (ops : list op),
    let s := run ops (zero_Heater k sens lo hi) in
    (isFault s = true -> pwm_value s = 0)
    /\ (deactivation_pending ops = false -> output_off_when_inactive s)
    /\ (sensor.type sens = 0 -> isActive s = false /\ pwm_value s = 0).
Proof.
  intros k sens lo hi ops s.
  destruct (zero_Heater_start k sens lo hi) as (J & K & L & I).
  destruct (run_invariants ops _ J K L I) as (Js & Ks & Ls & Is).
  fold s in Js, Ks, Ls, Is.
  assert (E : sensor s = sens) by apply run_sensor.
  split; [exact Js|]. split.
  - intros P. apply output_off_split. split; [apply Is, P | exact Js].
  - intros S. split.
    + apply Ks. rewrite E. exact S.
    + apply Ls. rewrite E. exact S.
Qed.

(** The inline operations other than [setIdle(true, ...)] do not write
    [thermal_runaway_state]. *)
Lemma inline_step_keeps_runaway_state o h :
  is_setIdle_true o = false -> inline_op o = true ->
  thermal_runaway_state (step o h) = thermal_runaway_state h.
Proof.
  destruct o; cbn [is_setIdle_true inline_op heater.step];
    try discriminate; intros Hi _; try reflexivity.
  - apply setActive_frame.
  - destruct onoff; [discriminate | reflexivity].
  - apply view_setFault.
  - apply view_ResetFault.
  - apply view_SwitchOff.
Qed.

(** A tick in [TRRunaway] stays there. *)
Lemma tick_stays_runaway now reading p h :
  thermal_runaway_state h = TRRunaway ->
  thermal_runaway_state (tick now reading p h) = TRRunaway.
Proof.
  intros T. unfold heater.tick.
  set (h0 := update_current_temperature reading h).
  assert (T0 : thermal_runaway_state h0 = TRRunaway) by exact T.
  destruct (view_get_output now p
              (if tempisrange h0 then protection now h0 else setFault h0))
    as (_ & _ & _ & E & _).
  rewrite E.
  destruct (tempisrange h0).
  - unfold thermal_runaway_protection. rewrite T0.
    destruct (view_setFault h0) as (_ & _ & _ & _ & E'). congruence.
  - destruct (view_setFault h0) as (_ & _ & _ & _ & E'). congruence.
Qed.

Lemma step_stays_runaway o h :
  is_setIdle_true o = false ->
  thermal_runaway_state h = TRRunaway ->
  thermal_runaway_state (step o h) = TRRunaway.
Proof.
  intros Hi T.
  destruct (inline_op o) eqn:Hin.
  - rewrite inline_step_keeps_runaway_state; assumption.
  - destruct o; try discriminate; cbn [heater.step].
    + destruct (view_setTarget now celsius h) as (_ & _ & _ & _ & E).
      congruence.
    + apply tick_stays_runaway, T.
Qed.

(** C5.  [setIdle(true, idle_temp)] puts the thermal runaway automaton in
    [TRInactive], from any heater state and for any [idle_temp].  No other
    inline operation of heater.h writes the automaton state, and no
    sequence of operations without a [setIdle(true, ...)] takes the
    automaton out of [TRRunaway]. *)
Theorem C5_setIdle_true_rearms_runaway :
  (forall (idle_temp : Z) (h : Heater),
      thermal_runaway_state (setIdle true idle_temp h) = TRInactive)
  /\ (forall (o : op) (h : Heater),
         is_setIdle_true o = false -> inline_op o = true ->
         thermal_runaway_state (step o h) = thermal_runaway_state h)
  /\ (forall (ops : list op) (h : Heater),
         Forall (fun o => is_setIdle_true o = false) ops ->
         thermal_runaway_state h = TRRunaway ->
         thermal_runaway_state (run ops h) = TRRunaway).
Proof.
  split; [reflexivity|]. split.
  - apply inline_step_keeps_runaway_state.
  - intros ops h F T.
    induction ops as [|o ops IH] using rev_ind; [exact T|].
    apply Forall_app in F. destruct F as (F1 & F2).
    rewrite run_snoc. apply step_stays_runaway.
    + inversion F2; assumption.
    + apply IH, F1.
Qed.

End HeaterRuns.

(** *** The scenario of spec section 8 *)

(** [set_target(200)] from a reading of 20 arms [watch_target = 22] and a
    deadline 20 later. *)
Example scenario_arms_watch :
  let h := setTarget scenario_interval scenario_increase 0 200
             (update_current_temperature 20 scenario_heater) in
  target_temperature h = 200 /\ watch_target_temp h = 22
  /\ watch_next_ms h = 20.
Proof. repeat split. Qed.

(** Reaching 23 by time 15: Stable, no fault. *)
Example scenario_reaches_stable :
  let h := scenario_run
             [OpTick 0 20 0; OpSetTarget 0 200; OpSetActive true;
              OpTick 0 20 0; OpTick 15 23 0] scenario_heater in
  thermal_runaway_state h = TRStable /\ isFault h = false
  /\ pwm_value h = 255.
Proof. repeat split. Qed.

(** Reaching only 21 by time 20: Runaway and Fault, output off. *)
Example scenario_trips_runaway :
  let h := scenario_run
             [OpTick 0 20 0; OpSetTarget 0 200; OpSetActive true;
              OpTick 0 20 0; OpTick 20 21 0] scenario_heater in
  thermal_runaway_state h = TRRunaway /\ isFault h = true
  /\ isActive h = false /\ pwm_value h = 0.
Proof. repeat split. Qed.

(** C1, as stated, fails.  The heater starts zero-initialized, with the
    configuration of the scenario (a sensor, limits 5 and 275).  After
    [setTarget(200)], [setActive(true)] and one tick at a reading of 20
    the output is at full power; a bare [setActive(false)] then clears
    Active and leaves [pwm_value] at 255. *)
Lemma C1_counterexample_setActive_false :
  let s := scenario_run
             [OpSetTarget 0 200; OpSetActive true; OpTick 1 20 0;
              OpSetActive false] scenario_heater in
  isActive s = false /\ pwm_value s = 255
  /\ ~ output_off_when_inactive s.
Proof.
  cbv zeta. split; [reflexivity|]. split; [reflexivity|].
  intros H. specialize (H (or_introl eq_refl)). discriminate H.
Qed.

Lemma C1_output_off_reachable_witness :
  output_off_when_inactive
    (scenario_run
       [OpSetTarget 0 200; OpSetActive true; OpTick 1 20 0;
        OpSetActive false; OpSetIdle true 150; OpTick 2 21 0]
       scenario_heater).
Proof.
  apply (proj1 (proj2 (C1_output_off_reachable
                         scenario_interval scenario_hysteresis
                         scenario_increase scenario_count
                         IS_HOTEND {| sensor.type := 1 |} 5 275
                         [OpSetTarget 0 200; OpSetActive true;
                          OpTick 1 20 0; OpSetActive false;
                          OpSetIdle true 150; OpTick 2 21 0]))).
  reflexivity.
Defined.

Lemma C5_setIdle_true_rearms_runaway_witness :
  let h := scenario_run
             [OpTick 0 20 0; OpSetTarget 0 200; OpSetActive true;
              OpTick 0 20 0; OpTick 20 21 0] scenario_heater in
  thermal_runaway_state h = TRRunaway
  /\ thermal_runaway_state
       (scenario_run [OpResetFault; OpSetTarget 30 200; OpSetActive true;
                      OpTick 31 25 0; OpSetIdle false 0] h) = TRRunaway
  /\ thermal_runaway_state (setIdle true 0 h) = TRInactive.
Proof.
  cbv zeta. split; [reflexivity|]. split.
  - apply (proj2 (proj2 (C5_setIdle_true_rearms_runaway
                           scenario_interval scenario_hysteresis
                           scenario_increase scenario_count))).
    + repeat constructor.
    + reflexivity.
  - apply (proj1 (C5_setIdle_true_rearms_runaway
                    scenario_interval scenario_hysteresis
                    scenario_increase scenario_count)).
Defined.

(* ===================================================================== *)
(** ** Properties of the AVR interrupt layer *)
(* ===================================================================== *)

Import HAL_AVR.

(** *** Status register and mask bits *)

Lemma testbit_put n b x k :
  0 <= n -> Z.testbit (put n b x) k = if n =? k then b else Z.testbit x k.
Proof.
  intros Hn. unfold put. destruct b.
  - rewrite Z.setbit_eqb by assumption. destruct (n =? k); reflexivity.
  - rewrite Z.clearbit_eqb.
    destruct (n =? k); cbn; [apply andb_false_r | apply andb_true_r].
Qed.

(** The flag updates of [andi], [ori] and [clr] leave the I bit alone. *)
Lemma logic_flags_I res sr :
  Z.testbit (logic_flags res sr) SREG_I = Z.testbit sr SREG_I.
Proof.
  unfold logic_flags.
  rewrite !testbit_put by (cbv; discriminate). reflexivity.
Qed.

Lemma interrupts_enabled_sei m : interrupts_enabled (sei m) = true.
Proof.
  unfold interrupts_enabled, sei. cbn [SREG set_SREG].
  apply Z.setbit_eq. cbv; discriminate.
Qed.

Lemma interrupts_enabled_cli m : interrupts_enabled (cli m) = false.
Proof.
  unfold interrupts_enabled, cli. cbn [SREG set_SREG].
  apply Z.clearbit_eq.
Qed.

Lemma bit_cases b : 0 <= b < 8 ->
  b = 0 \/ b = 1 \/ b = 2 \/ b = 3 \/ b = 4 \/ b = 5 \/ b = 6 \/ b = 7.
Proof. lia. Qed.

(** [andi r16, ~msk0] clears the enable bit of the temperature timer. *)
Lemma temp_masked_disabled b v :
  0 <= b < 8 -> Z.testbit (temp_masked b v) b = false.
Proof.
  intros Hb. unfold temp_masked. rewrite Z.land_spec.
  assert (E : Z.testbit (lo8 (Z.lnot (msk0 b))) b = false).
  { destruct (bit_cases b Hb) as [-> | [-> | [-> | [-> | [-> | [-> | [-> | ->]]]]]]];
      reflexivity. }
  rewrite E. apply andb_false_r.
Qed.

(** [ori r16, msk0] sets it. *)
Lemma ori_msk0_enabled b v :
  0 <= b < 8 -> Z.testbit (Z.lor v (lo8 (msk0 b))) b = true.
Proof.
  intros Hb. rewrite Z.lor_spec.
  assert (E : Z.testbit (lo8 (msk0 b)) b = true).
  { destruct (bit_cases b Hb) as [-> | [-> | [-> | [-> | [-> | [-> | [-> | ->]]]]]]];
      reflexivity. }
  rewrite E. apply orb_true_r.
Qed.

(** *** Class [InterruptProtectedBlock] *)

(** C6.  Constructing an [InterruptProtectedBlock] records the current
    SREG; the immediate variant then disables interrupts and the deferred
    variant ([later = true]) leaves the machine as it is.  The destructor
    writes the recorded value back, so however the guarded scope runs and
    wherever it is left, SREG -- and with it the global interrupt enable --
    is afterwards what it was before the block was constructed.  In the
    deferred variant a later [protect()] disables interrupts. *)
Theorem C6_InterruptProtectedBlock_restores_SREG :
  forall (m : machine) (later : bool) (body : list scope_step),
    sreg (fst (IPB_ctor later m)) = SREG m
    /\ interrupts_enabled (snd (IPB_ctor false m)) = false
    /\ snd (IPB_ctor true m) = m
    /\ (forall m', interrupts_enabled
                     (protect (fst (IPB_ctor later m)) m') = false)
    /\ (forall m', SREG (IPB_dtor (fst (IPB_ctor later m)) m') = SREG m)
    /\ SREG (guarded_scope later body m) = SREG m
    /\ interrupts_enabled (guarded_scope later body m) = interrupts_enabled m.
Proof.
  intros m later body. repeat split.
  - apply interrupts_enabled_cli.
  - intros m'. apply interrupts_enabled_cli.
Qed.

(** *** Running the entry sequences *)

Lemma exec_trace_app b p q m :
  exec_trace b (p ++ q) m
  = match exec_trace b p m with
    | Some (t1, m1) =>
        match exec_trace b q m1 with
        | Some (t2, m2) => Some (t1 ++ t2, m2)
        | None => None
        end
    | None => None
    end.
Proof.
  revert m. induction p as [|i p IH]; intros m; cbn [app exec_trace].
  - destruct (exec_trace b q m) as [[t2 m2]|]; reflexivity.
  - destruct (exec_traced b i m) as [[inner m1]|]; [|reflexivity].
    rewrite IH.
    destruct (exec_trace b p m1) as [[t1 m1']|]; [|reflexivity].
    destruct (exec_trace b q m1') as [[t2 m2]|]; [|reflexivity].
    cbn [app]. rewrite app_assoc. reflexivity.
Qed.

(** Stretches of code that follow the calling convention return with
    the stack and the callee-saved registers as they were. *)
Lemma run_code_abi sb m :
  Forall abi_ok sb ->
  stack (snd (run_code sb m)) = stack m
  /\ forall r, callee_saved r = true -> R (snd (run_code sb m)) r = R m r.
Proof.
  intros F. revert m. induction F as [|f sb Hf F IH]; intros m.
  - split; reflexivity.
  - cbn [run_code]. destruct (run_code sb (f m)) as [tr mf] eqn:E.
    cbn [snd]. specialize (IH (f m)). rewrite E in IH. cbn [snd] in IH.
    destruct IH as (IHs & IHr). destruct (Hf m) as (Hs & Hr).
    split; [congruence|].
    intros r Hc. rewrite IHr, Hr by assumption. reflexivity.
Qed.

Lemma run_code_keeps_TIMSK0 sb m :
  Forall keeps_TIMSK0 sb ->
  Forall (fun s => TIMSK0 s = TIMSK0 m) (fst (run_code sb m))
  /\ TIMSK0 (snd (run_code sb m)) = TIMSK0 m.
Proof.
  intros F. revert m. induction F as [|f sb Hf F IH]; intros m.
  - split; [constructor | reflexivity].
  - cbn [run_code]. destruct (run_code sb (f m)) as [tr mf] eqn:E.
    cbn [fst snd]. specialize (IH (f m)). rewrite E in IH.
    cbn [fst snd] in IH. destruct IH as (IHt & IHf).
    destruct Hf as (_ & Hk). rewrite Hk in IHt, IHf.
    split; [|assumption].
    constructor; [apply Hk | assumption].
Qed.

Section HandlerRuns.

Variable OCIE0B : Z.
Variable OCIE1A : Z.

Local Abbreviation STEPPER_TIMER_ISR := (STEPPER_TIMER_ISR OCIE0B OCIE1A).
Local Abbreviation TEMP_TIMER_ISR := (TEMP_TIMER_ISR OCIE0B).
Local Abbreviation stepper_prologue := (stepper_prologue OCIE0B OCIE1A).
Local Abbreviation stepper_epilogue := (stepper_epilogue OCIE0B OCIE1A).
Local Abbreviation temp_prologue := (temp_prologue OCIE0B).
Local Abbreviation temp_epilogue := (temp_epilogue OCIE0B).
Local Abbreviation temp_masked := (temp_masked OCIE0B).
Local Abbreviation msk0 := (msk0 OCIE0B).
Local Abbreviation msk1 := (msk1 OCIE1A).
Local Abbreviation TEMP_ISR_ENABLED := (TEMP_ISR_ENABLED OCIE0B).
Local Abbreviation stepper_handler := (stepper_handler OCIE0B OCIE1A).
Local Abbreviation temp_handler := (temp_handler OCIE0B OCIE1A).
Local Abbreviation run_temp_body := (run_temp_body OCIE0B OCIE1A).

Lemma STEPPER_TIMER_ISR_cut :
  STEPPER_TIMER_ISR = stepper_prologue ++ CALL :: stepper_epilogue.
Proof. reflexivity. Qed.

Lemma TEMP_TIMER_ISR_cut :
  TEMP_TIMER_ISR = temp_prologue ++ CALL :: temp_epilogue.
Proof. reflexivity. Qed.

(** One instruction of a straight-line sequence. *)
Lemma exec_trace_step b i rest m m1 tr mf :
  exec_traced b i m = Some ([], m1) ->
  exec_trace b rest m1 = Some (tr, mf) ->
  exec_trace b (i :: rest) m = Some ((At i, m) :: tr, mf).
Proof.
  intros E1 E2. cbn [exec_trace]. rewrite E1, E2. reflexivity.
Qed.

(** Symbolic execution, one instruction at a time, each state written
    out field by field. *)
Ltac run_instr :=
  eapply exec_trace_step;
  [ cbv beta iota zeta delta
        [exec_traced exec_instr irq_entry cli sei set_R set_SREG set_TIMSK0
         set_TIMSK1 set_stack write_io read_io R SREG TIMSK0 TIMSK1 stack
         Nat.eqb];
    reflexivity
  | ].

Ltac run_sequence := repeat run_instr; reflexivity.

Ltac read_state :=
  cbv beta iota zeta delta
      [irq_entry cli sei set_R set_SREG set_TIMSK0 set_TIMSK1 set_stack
       R SREG TIMSK0 TIMSK1 stack Nat.eqb skipn interrupts_enabled
       entry_ok fst snd].

Ltac interrupts_off := rewrite ?logic_flags_I; apply Z.clearbit_eq.

Ltac entry_goal :=
  lazymatch goal with
  | |- _ /\ _ => split; entry_goal
  | |- _ \/ _ => solve [left; entry_goal] || solve [right; entry_goal]
  | |- Z.testbit _ SREG_I = false => interrupts_off
  | |- _ = _ => reflexivity
  end.

Ltac entry_holds := read_state; entry_goal.

(** The last entry of an exit sequence is the one at [reti]. *)
Ltac find_reti :=
  eexists; cbn [In]; repeat (first [left; reflexivity | right]).

Ltac entries_hold :=
  repeat (apply Forall_cons; [entry_holds|]); apply Forall_nil.

(** The motion handler up to its [call]. *)
Lemma stepper_prologue_run b m :
  exists t1 m1,
    exec_trace b stepper_prologue (irq_entry m) = Some (t1, m1)
    /\ TIMSK0 m1 = temp_masked (TIMSK0 m)
    /\ interrupts_enabled m1 = true
    /\ skipn 14 (stack m1)
       = TIMSK0 m :: SREG (irq_entry m) :: R m 16%nat :: stack m
    /\ Forall (entry_ok (fun s => TIMSK0 s = TIMSK0 m
                                  \/ TIMSK0 s = temp_masked (TIMSK0 m))
                        (fun _ => False)) t1.
Proof.
  destruct m as [R0 S0 T0 T1 st].
  unfold HAL_AVR.stepper_prologue, HAL_AVR.STEPPER_TIMER_ISR. cbn [firstn].
  eexists. eexists. split; [run_sequence|].
  split; [reflexivity|]. split.
  { read_state. rewrite logic_flags_I. apply Z.setbit_eq. cbv; discriminate. }
  split; [reflexivity|].
  entries_hold.
Qed.

(** The motion handler after its [call] returned. *)
Lemma stepper_epilogue_run b mb t0 sr r16 rest :
  skipn 14 (stack mb) = t0 :: sr :: r16 :: rest ->
  exists t2 mf,
    exec_trace b stepper_epilogue mb = Some (t2, mf)
    /\ TIMSK0 mf = t0
    /\ SREG mf = Z.setbit sr SREG_I
    /\ stack mf = rest
    /\ R mf 16%nat = r16
    /\ Forall (entry_ok (fun s => TIMSK0 s = TIMSK0 mb \/ TIMSK0 s = t0)
                        (fun s => TIMSK0 s = t0 /\ SREG s = sr)) t2
    /\ (exists s, In (At RETI, s) t2).
Proof.
  destruct mb as [Rb Sb T0b T1b stb]. cbn [stack].
  do 14 (destruct stb as [|? stb]; [discriminate|]).
  cbn [skipn]. intros ->.
  unfold HAL_AVR.stepper_epilogue, HAL_AVR.STEPPER_TIMER_ISR. cbn [skipn].
  eexists. eexists. split; [run_sequence|].
  do 4 (split; [reflexivity|]).
  split; [entries_hold | find_reti].
Qed.

(** The temperature handler up to its [call]: until [sei] interrupts are
    off, from then on the enable bit of the temperature timer is. *)
Lemma temp_prologue_run b m :
  exists t1 m1,
    exec_trace b temp_prologue (irq_entry m) = Some (t1, m1)
    /\ TIMSK0 m1 = temp_masked (TIMSK0 m)
    /\ R m1 16%nat = temp_masked (TIMSK0 m)
    /\ interrupts_enabled m1 = true
    /\ skipn 14 (stack m1) = SREG (irq_entry m) :: R m 16%nat :: stack m
    /\ Forall (entry_ok (fun s => interrupts_enabled s = false
                                  \/ TIMSK0 s = temp_masked (TIMSK0 m))
                        (fun _ => False)) t1.
Proof.
  destruct m as [R0 S0 T0 T1 st].
  unfold HAL_AVR.temp_prologue, HAL_AVR.TEMP_TIMER_ISR. cbn [firstn].
  eexists. eexists. split; [run_sequence|].
  do 2 (split; [reflexivity|]). split.
  { read_state. rewrite logic_flags_I. apply Z.setbit_eq. cbv; discriminate. }
  split; [reflexivity|].
  entries_hold.
Qed.

(** The temperature handler after its [call] returned: the enable bit is
    written only after [cli], and interrupts stay off up to [reti]. *)
Lemma temp_epilogue_run b mb sr r16 rest :
  skipn 14 (stack mb) = sr :: r16 :: rest ->
  exists t2 mf,
    exec_trace b temp_epilogue mb = Some (t2, mf)
    /\ TIMSK0 mf = Z.lor (R mb 16%nat) (lo8 msk0)
    /\ SREG mf = Z.setbit sr SREG_I
    /\ stack mf = rest
    /\ R mf 16%nat = r16
    /\ Forall (entry_ok
                 (fun s => TIMSK0 s = TIMSK0 mb
                           \/ interrupts_enabled s = false
                           \/ SREG s = sr)
                 (fun s => TIMSK0 s = Z.lor (R mb 16%nat) (lo8 msk0)
                           /\ SREG s = sr)) t2
    /\ (exists s, In (At RETI, s) t2).
Proof.
  destruct mb as [Rb Sb T0b T1b stb]. cbn [stack].
  do 14 (destruct stb as [|? stb]; [discriminate|]).
  cbn [skipn]. intros ->.
  unfold HAL_AVR.temp_epilogue, HAL_AVR.TEMP_TIMER_ISR. cbn [skipn].
  eexists. eexists. split; [run_sequence|].
  do 4 (split; [reflexivity|]).
  split; [entries_hold | find_reti].
Qed.

(** An entry of an entry or exit sequence is never the [call] or a state
    inside the body, and its state satisfies the sequence's [P]. *)
Lemma entry_ok_state P Q l s : entry_ok P Q (l, s) -> P s.
Proof.
  unfold entry_ok. cbn [fst snd].
  destruct l as [[]|]; tauto.
Qed.

Lemma entry_ok_sts P Q a r s :
  entry_ok P Q (At (STS a r), s) -> interrupts_enabled s = false.
Proof. intros H; apply H. Qed.

Lemma entry_ok_reti P Q s : entry_ok P Q (At RETI, s) -> Q s.
Proof. intros H; apply H. Qed.

Lemma in_body_label l s tb :
  In (l, s) (map (fun x : machine => (InBody, x)) tb) -> l = InBody /\ In s tb.
Proof.
  intros H. apply in_map_iff in H. destruct H as (x & E & Hx).
  inversion E; subst. split; [reflexivity | assumption].
Qed.

(** A whole handler: entry sequence, [call], body, exit sequence. *)
Lemma handler_run prog pro epi (body : body_run) m t1 m1 tb mb t2 mf :
  prog = pro ++ CALL :: epi ->
  exec_trace body pro m = Some (t1, m1) ->
  body m1 = Some (tb, mb) ->
  exec_trace body epi mb = Some (t2, mf) ->
  exec_trace body prog m
  = Some (t1 ++ (At CALL, m1) :: map (fun x => (InBody, x)) tb ++ t2, mf).
Proof.
  intros -> E1 Eb E2. rewrite exec_trace_app, E1.
  cbn [exec_trace exec_traced]. rewrite Eb, E2. reflexivity.
Qed.

(** Where an entry of a handler's trace can be. *)
Lemma handler_trace_cases (t1 t2 : list (label * machine)) m1 tb l s :
  In (l, s) (t1 ++ (At CALL, m1) :: map (fun x => (InBody, x)) tb ++ t2) ->
  In (l, s) t1 \/ (l = At CALL /\ s = m1) \/ (l = InBody /\ In s tb)
  \/ In (l, s) t2.
Proof.
  intros H. apply in_app_or in H. destruct H as [H | H]; [left; exact H|].
  destruct H as [H | H].
  - inversion H; subst. right; left. split; reflexivity.
  - apply in_app_or in H. destruct H as [H | H].
    + right; right; left. apply in_body_label, H.
    + right; right; right. exact H.
Qed.

(** The motion handler as a whole. *)
Lemma stepper_handler_run sb m :
  Forall abi_ok sb ->
  exists t1 m1 t2 mf,
    stepper_handler sb m
    = Some (t1 ++ (At CALL, m1)
               :: map (fun x => (InBody, x)) (fst (run_code sb m1)) ++ t2,
            mf)
    /\ TIMSK0 m1 = temp_masked (TIMSK0 m)
    /\ interrupts_enabled m1 = true
    /\ skipn 14 (stack m1)
       = TIMSK0 m :: SREG (irq_entry m) :: R m 16%nat :: stack m
    /\ Forall (entry_ok (fun s => TIMSK0 s = TIMSK0 m
                                  \/ TIMSK0 s = temp_masked (TIMSK0 m))
                        (fun _ => False)) t1
    /\ TIMSK0 mf = TIMSK0 m
    /\ SREG mf = Z.setbit (SREG (irq_entry m)) SREG_I
    /\ stack mf = stack m
    /\ R mf 16%nat = R m 16%nat
    /\ Forall (entry_ok
                 (fun s => TIMSK0 s = TIMSK0 (snd (run_code sb m1))
                           \/ TIMSK0 s = TIMSK0 m)
                 (fun s => TIMSK0 s = TIMSK0 m
                           /\ SREG s = SREG (irq_entry m))) t2
    /\ (exists s, In (At RETI, s) t2).
Proof.
  intros Habi.
  set (body := fun x : machine => Some (run_code sb x)).
  destruct (stepper_prologue_run body m) as (t1 & m1 & E1 & HT & HI & Hst & F1).
  destruct (run_code_abi sb m1 Habi) as (Hs & _).
  destruct (stepper_epilogue_run body (snd (run_code sb m1)) (TIMSK0 m)
              (SREG (irq_entry m)) (R m 16%nat) (stack m))
    as (t2 & mf & E2 & HTf & HSf & Hstf & HRf & F2 & Hreti).
  { rewrite Hs. exact Hst. }
  exists t1, m1, t2, mf.
  split.
  { unfold HAL_AVR.stepper_handler. fold body.
    apply (handler_run _ _ _ body _ t1 m1 _ (snd (run_code sb m1)) t2 mf
             STEPPER_TIMER_ISR_cut E1); [|exact E2].
    unfold body. destruct (run_code sb m1); reflexivity. }
  repeat (split; [assumption|]). assumption.
Qed.

Hypothesis OCIE0B_range : 0 <= OCIE0B < 8.

(** C7.  The motion handler, run from any machine state around any body
    that follows the calling convention (so for every way the body can
    complete):
    - at its [call] the TIMSK0 value it found is saved on the stack (under
      the 14 pushed call-clobbered registers), the enable bit OCIE0B of the
      temperature timer is clear and global interrupts are enabled;
    - every store to a timer mask register, the restoring one included,
      happens with global interrupts disabled;
    - at [reti], and after it, TIMSK0 is exactly what it was on entry --
      the temperature enable bit and every other bit. *)
Theorem C7_stepper_handler_restores_TIMSK0 :
  forall (sb : list (machine -> machine)) (m : machine),
    Forall abi_ok sb ->
    exists tr mf,
      stepper_handler sb m = Some (tr, mf)
      /\ (exists s, In (At CALL, s) tr)
      /\ (forall s, In (At CALL, s) tr ->
            TEMP_ISR_ENABLED s = false
            /\ interrupts_enabled s = true
            /\ skipn 14 (stack s)
               = TIMSK0 m :: SREG (irq_entry m) :: R m 16%nat :: stack m)
      /\ (forall a r s, In (At (STS a r), s) tr ->
            interrupts_enabled s = false)
      /\ (exists s, In (At RETI, s) tr)
      /\ (forall s, In (At RETI, s) tr ->
            interrupts_enabled s = false /\ TIMSK0 s = TIMSK0 m)
      /\ TIMSK0 mf = TIMSK0 m
      /\ TEMP_ISR_ENABLED mf = TEMP_ISR_ENABLED m.
Proof.
  intros sb m Habi.
  destruct (stepper_handler_run sb m Habi)
    as (t1 & m1 & t2 & mf & E & HT & HI & Hst & F1 & HTf & _ & _ & _ & F2
        & (sr & Hreti)).
  rewrite Forall_forall in F1, F2.
  eexists. exists mf. split; [exact E|].
  split. { exists m1. apply in_or_app. right. left. reflexivity. }
  split.
  { intros s H. apply handler_trace_cases in H.
    destruct H as [H | [(_ & ->) | [(H & _) | H]]].
    - apply F1 in H. contradiction.
    - unfold HAL_AVR.TEMP_ISR_ENABLED. rewrite HT.
      split; [apply temp_masked_disabled, OCIE0B_range|].
      split; assumption.
    - discriminate H.
    - apply F2 in H. contradiction. }
  split.
  { intros a r s H. apply handler_trace_cases in H.
    destruct H as [H | [(H & _) | [(H & _) | H]]]; try discriminate H.
    - apply F1 in H. apply (entry_ok_sts _ _ _ _ _ H).
    - apply F2 in H. apply (entry_ok_sts _ _ _ _ _ H). }
  split.
  { exists sr. apply in_or_app. right. right. apply in_or_app. right.
    exact Hreti. }
  split.
  { intros s H. apply handler_trace_cases in H.
    destruct H as [H | [(H & _) | [(H & _) | H]]]; try discriminate H.
    - apply F1 in H. apply entry_ok_reti in H. contradiction.
    - apply F2 in H. apply entry_ok_reti in H. destruct H as (H1 & H2).
      split; [|exact H1].
      unfold interrupts_enabled. rewrite H2. apply interrupts_enabled_cli. }
  split; [exact HTf|].
  unfold HAL_AVR.TEMP_ISR_ENABLED. rewrite HTf. reflexivity.
Qed.

(** While the temperature timer is masked, a motion handler whose body
    does not write TIMSK0 keeps it masked in every state it passes
    through, and hands back the stack and r16 as it found them. *)
Lemma stepper_handler_keeps_temp_masked sb m :
  Forall keeps_TIMSK0 sb ->
  TEMP_ISR_ENABLED m = false ->
  exists tr mf,
    stepper_handler sb m = Some (tr, mf)
    /\ Forall (fun e => TEMP_ISR_ENABLED (snd e) = false) tr
    /\ TIMSK0 mf = TIMSK0 m
    /\ stack mf = stack m
    /\ R mf 16%nat = R m 16%nat.
Proof.
  intros Hk Hm.
  assert (Habi : Forall abi_ok sb).
  { eapply Forall_impl; [|exact Hk]. intros f Hf. apply Hf. }
  destruct (stepper_handler_run sb m Habi)
    as (t1 & m1 & t2 & mf & E & HT & HI & Hst & F1 & HTf & _ & Hsf & HRf & F2
        & _).
  destruct (run_code_keeps_TIMSK0 sb m1 Hk) as (Kb & Kf).
  assert (Hmask : forall s, TIMSK0 s = TIMSK0 m
                            \/ TIMSK0 s = temp_masked (TIMSK0 m) ->
                            TEMP_ISR_ENABLED s = false).
  { intros s [H | H]; unfold HAL_AVR.TEMP_ISR_ENABLED; rewrite H.
    - exact Hm.
    - apply temp_masked_disabled, OCIE0B_range. }
  eexists. exists mf. split; [exact E|].
  split; [|repeat split; assumption].
  apply Forall_app. split.
  { eapply Forall_impl; [|exact F1]. intros [l s] H. cbn [snd].
    apply Hmask. apply (entry_ok_state _ _ _ _ H). }
  constructor; [cbn [snd]; apply Hmask; right; exact HT|].
  apply Forall_app. split.
  { apply Forall_map. eapply Forall_impl; [|exact Kb].
    intros s H. cbn [snd]. apply Hmask. right. congruence. }
  eapply Forall_impl; [|exact F2]. intros [l s] H. cbn [snd].
  apply Hmask. apply entry_ok_state in H.
  destruct H as [H | H]; [right; congruence | left; exact H].
Qed.

(** The body of the temperature handler, entered with the temperature
    timer masked, keeps it masked throughout. *)
Lemma run_temp_body_masked tb :
  Forall tstep_ok tb ->
  forall m, TEMP_ISR_ENABLED m = false ->
  exists tr mb,
    run_temp_body tb m = Some (tr, mb)
    /\ Forall (fun s => TEMP_ISR_ENABLED s = false) tr
    /\ TIMSK0 mb = TIMSK0 m
    /\ stack mb = stack m
    /\ R mb 16%nat = R m 16%nat.
Proof.
  induction 1 as [|x tb Hx F IH]; intros m Hm.
  - exists [], m. repeat split. constructor.
  - destruct x as [f | sb]; cbn [HAL_AVR.run_temp_body].
    + destruct Hx as (Habi & Hk). destruct (Habi m) as (Hs & Hr).
      assert (Hfm : TEMP_ISR_ENABLED (f m) = false).
      { unfold HAL_AVR.TEMP_ISR_ENABLED. rewrite Hk. exact Hm. }
      destruct (IH (f m) Hfm) as (tr & mb & E & Ft & HT & Hst & HR).
      rewrite E. exists (f m :: tr), mb.
      split; [reflexivity|]. split; [constructor; assumption|].
      split; [congruence|]. split; [congruence|].
      rewrite HR. apply Hr. reflexivity.
    + destruct (interrupts_enabled m && STEPPER_ISR_ENABLED OCIE1A m).
      * destruct (stepper_handler_keeps_temp_masked sb m Hx Hm)
          as (tr1 & m1 & E1 & F1 & HT1 & Hs1 & HR1).
        rewrite E1.
        assert (Hm1 : TEMP_ISR_ENABLED m1 = false).
        { unfold HAL_AVR.TEMP_ISR_ENABLED. rewrite HT1. exact Hm. }
        destruct (IH m1 Hm1) as (tr & mb & E & Ft & HT & Hst & HR).
        rewrite E. eexists. exists mb.
        split; [reflexivity|]. split.
        { apply Forall_app. split.
          - apply Forall_map. exact F1.
          - constructor; assumption. }
        split; [congruence|]. split; congruence.
      * apply IH, Hm.
Qed.

(** C8.  The temperature handler, run from any machine state around any
    body whose code (and the code of the motion handlers that preempt it)
    follows the calling convention and does not write TIMSK0:
    - in no state of the handler are global interrupts enabled while
      OCIE0B is set, so the handler cannot be entered again;
    - at its [call] global interrupts are enabled and OCIE0B is clear,
      and OCIE0B is clear in every state inside the body, the states of a
      preempting motion handler included;
    - at [reti] OCIE0B is set again, with interrupts still disabled. *)
Theorem C8_temp_handler_masks_itself :
  forall (tb : list (tstep)) (m : machine),
    Forall (tstep_ok) tb ->
    exists tr mf,
      temp_handler tb m = Some (tr, mf)
      /\ (forall l s, In (l, s) tr ->
            interrupts_enabled s = true -> TEMP_ISR_ENABLED s = false)
      /\ (exists s, In (At CALL, s) tr)
      /\ (forall s, In (At CALL, s) tr ->
            interrupts_enabled s = true /\ TEMP_ISR_ENABLED s = false)
      /\ (forall s, In (InBody, s) tr -> TEMP_ISR_ENABLED s = false)
      /\ (exists s, In (At RETI, s) tr)
      /\ (forall s, In (At RETI, s) tr ->
            TEMP_ISR_ENABLED s = true /\ interrupts_enabled s = false)
      /\ TEMP_ISR_ENABLED mf = true.
Proof.
  intros tb m Hok.
  set (body := run_temp_body tb).
  destruct (temp_prologue_run body m)
    as (t1 & m1 & E1 & HT & HR & HI & Hst & F1).
  assert (Hm1 : TEMP_ISR_ENABLED m1 = false).
  { unfold HAL_AVR.TEMP_ISR_ENABLED. rewrite HT.
    apply temp_masked_disabled, OCIE0B_range. }
  destruct (run_temp_body_masked tb Hok m1 Hm1)
    as (trb & mb & Eb & Fb & HTb & Hsb & HRb).
  destruct (temp_epilogue_run body mb (SREG (irq_entry m)) (R m 16%nat)
              (stack m))
    as (t2 & mf & E2 & HTf & HSf & Hstf & HRf & F2 & (sr & Hreti)).
  { rewrite Hsb. exact Hst. }
  assert (Hmb : TEMP_ISR_ENABLED mb = false).
  { unfold HAL_AVR.TEMP_ISR_ENABLED. rewrite HTb. exact Hm1. }
  assert (Hset : Z.testbit (Z.lor (R mb 16%nat) (lo8 msk0)) OCIE0B = true)
    by apply ori_msk0_enabled, OCIE0B_range.
  assert (Hoff : Z.testbit (SREG (irq_entry m)) SREG_I = false)
    by apply interrupts_enabled_cli.
  rewrite Forall_forall in F1, F2, Fb.
  eexists. exists mf. split.
  { unfold HAL_AVR.temp_handler. fold body.
    exact (handler_run _ _ _ body _ t1 m1 trb mb t2 mf
             TEMP_TIMER_ISR_cut E1 Eb E2). }
  split.
  { intros l s H Hen. apply handler_trace_cases in H.
    destruct H as [H | [(_ & ->) | [(_ & H) | H]]].
    - apply F1 in H. apply entry_ok_state in H. destruct H as [H | H].
      + congruence.
      + unfold HAL_AVR.TEMP_ISR_ENABLED. rewrite H.
        apply temp_masked_disabled, OCIE0B_range.
    - exact Hm1.
    - apply Fb, H.
    - apply F2 in H. apply entry_ok_state in H.
      destruct H as [H | [H | H]].
      + unfold HAL_AVR.TEMP_ISR_ENABLED. rewrite H. exact Hmb.
      + congruence.
      + unfold interrupts_enabled in Hen. rewrite H in Hen. congruence. }
  split. { exists m1. apply in_or_app. right. left. reflexivity. }
  split.
  { intros s H. apply handler_trace_cases in H.
    destruct H as [H | [(_ & ->) | [(H & _) | H]]].
    - apply F1 in H. contradiction.
    - split; assumption.
    - discriminate H.
    - apply F2 in H. contradiction. }
  split.
  { intros s H. apply handler_trace_cases in H.
    destruct H as [H | [(H & _) | [(_ & H) | H]]]; try discriminate H.
    - apply F1 in H. contradiction.
    - apply Fb, H.
    - apply F2 in H. contradiction. }
  split.
  { exists sr. apply in_or_app. right. right. apply in_or_app. right.
    exact Hreti. }
  split.
  { intros s H. apply handler_trace_cases in H.
    destruct H as [H | [(H & _) | [(H & _) | H]]]; try discriminate H.
    - apply F1 in H. apply entry_ok_reti in H. contradiction.
    - apply F2 in H. apply entry_ok_reti in H. destruct H as (H1 & H2).
      split.
      + unfold HAL_AVR.TEMP_ISR_ENABLED. rewrite H1. exact Hset.
      + unfold interrupts_enabled. rewrite H2. exact Hoff. }
  unfold HAL_AVR.TEMP_ISR_ENABLED. rewrite HTf. exact Hset.
Qed.

End HandlerRuns.

(** *** The theorems at concrete inputs *)

Lemma C4_setActive_guard_witness :
  isActive (setActive true scenario_heater) = true.
Proof.
  apply (proj2 (proj1 (C4_setActive_guard true scenario_heater))).
  repeat split. discriminate.
Defined.

Lemma example_stepper_body_abi : Forall abi_ok example_stepper_body.
Proof.
  repeat constructor.
Qed.

Lemma example_temp_body_ok : Forall tstep_ok example_temp_body.
Proof.
  repeat (apply Forall_cons); try apply Forall_nil;
    cbn [tstep_ok]; repeat (apply Forall_cons); try apply Forall_nil;
    (split; [intros m; split; [reflexivity|] | reflexivity]);
    intros r Hr; cbn [R set_R set_TIMSK1];
    repeat (destruct r as [|r]; try discriminate Hr; try reflexivity).
Qed.

Lemma C7_stepper_handler_restores_TIMSK0_witness :
  exists tr mf,
    stepper_handler 2 1 example_stepper_body example_machine = Some (tr, mf)
    /\ TIMSK0 mf = 5.
Proof.
  assert (Hb : 0 <= 2 < 8) by lia.
  destruct (C7_stepper_handler_restores_TIMSK0 2 1 Hb
              example_stepper_body example_machine example_stepper_body_abi)
    as (tr & mf & E & _ & _ & _ & _ & _ & HT & _).
  exists tr, mf. split; [exact E | exact HT].
Defined.

Lemma C8_temp_handler_masks_itself_witness :
  exists tr mf,
    temp_handler 2 1 example_temp_body example_machine = Some (tr, mf)
    /\ TEMP_ISR_ENABLED 2 mf = true.
Proof.
  assert (Hb : 0 <= 2 < 8) by lia.
  destruct (C8_temp_handler_masks_itself 2 1 Hb
              example_temp_body example_machine example_temp_body_ok)
    as (tr & mf & E & _ & _ & _ & _ & _ & _ & HT).
  exists tr, mf. split; [exact E | exact HT].
Defined.

(** *** The handlers and the guard run on the example machine *)

Example stepper_handler_example :
  match stepper_handler 2 1 example_stepper_body example_machine with
  | Some (tr, mf) =>
      length tr = 51%nat /\ TIMSK0 mf = 5 /\ SREG mf = 130
      /\ stack mf = [42] /\ R mf 16%nat = 16
  | None => False
  end.
Proof. vm_compute. repeat split. Qed.

Example temp_handler_example :
  match temp_handler 2 1 example_temp_body example_machine with
  | Some (tr, mf) =>
      length tr = 98%nat /\ TIMSK0 mf = 5 /\ SREG mf = 130
      /\ stack mf = [42] /\ R mf 24%nat = 24
  | None => False
  end.
Proof. vm_compute. repeat split. Qed.

Example guarded_scope_example :
  SREG (guarded_scope false [Other sei; Protect; Other (set_SREG 0)]
                      example_machine) = 130
  /\ SREG (guarded_scope true [Protect; Unprotect; Other cli]
                         example_machine) = 130.
Proof. split; reflexivity. Qed.

(* ===================================================================== *)
(** ** Further properties of the heater object *)
(* ===================================================================== *)

(** *** The flag byte *)

Lemma set_flag_same h : set_flag (flag (data h)) h = h.
Proof.
  destruct h as [[k p f i lo hi] pd sn wt pw cl tt it ct tr wn io].
  reflexivity.
Qed.

Lemma assign_flag_writes_only n :
  0 <= n -> writes_only_flag (assign_flag n) n.
Proof.
  intros Hn onoff h. rewrite flag_assign_flag. split; [|split].
  - rewrite get_bit_put_bit, Z.eqb_refl by assumption. reflexivity.
  - intros k Hk. rewrite get_bit_put_bit by assumption.
    destruct (Z.eqb_spec n k); [congruence | reflexivity].
  - unfold assign_flag. rewrite set_flag_set_flag. apply set_flag_same.
Qed.

(** X1.  Each of [setUsePid], [setPidTuned], [setHWinvert],
    [setThermalProtection] and [setPidTuning] stores its argument in its
    own flag and changes nothing else: the other seven flags read as
    before and putting the old flag byte back gives the old heater.
    [setActive] likewise changes no flag but Active and no other member. *)
Theorem X1_flag_setters_write_one_flag :
  writes_only_flag setUsePid UsePid_bit
  /\ writes_only_flag setPidTuned Pidtuned_bit
  /\ writes_only_flag setHWinvert HWInvert_bit
  /\ writes_only_flag setThermalProtection Thermalprotection_bit
  /\ writes_only_flag setPidTuning Pidtuning_bit
  /\ (forall (onoff : bool) (h : Heater),
        (forall k, k <> Active_bit ->
           get_bit k (flag (data (setActive onoff h)))
           = get_bit k (flag (data h)))
        /\ set_flag (flag (data h)) (setActive onoff h) = h).
Proof.
  repeat (split; [apply assign_flag_writes_only; cbv; discriminate|]).
  intros onoff h.
  assert (W : writes_only_flag (assign_flag Active_bit) Active_bit)
    by (apply assign_flag_writes_only; cbv; discriminate).
  unfold setActive.
  destruct (negb (isFault h) && negb (sensor.type (sensor h) =? 0) && onoff);
    split; apply W.
Qed.

(** A value fits eight bits exactly when its bits from 8 up are clear. *)
Lemma uint8_high_bits x :
  0 <= x < 256 <-> (0 <= x /\ forall k, 8 <= k -> Z.testbit x k = false).
Proof.
  split.
  - intros Hx. split; [lia|]. intros k Hk.
    destruct (Z.eq_dec x 0) as [-> | Hne]; [apply Z.bits_0|].
    apply Z.bits_above_log2; [lia|].
    assert (Z.log2 x < 8) by (apply Z.log2_lt_pow2; lia). lia.
  - intros (H0 & Hb).
    assert (E : x mod 2 ^ 8 = x).
    { rewrite <- Z.land_ones by lia. apply Z.bits_inj'. intros k Hk.
      rewrite Z.land_spec.
      destruct (Z_lt_le_dec k 8) as [Hlt | Hge].
      - rewrite Z.ones_spec_low by lia. apply andb_true_r.
      - rewrite Z.ones_spec_high by lia. rewrite Hb by lia. reflexivity. }
    pose proof (Z.mod_pos_bound x (2 ^ 8)) as B.
    change (2 ^ 8) with 256 in *. lia.
Qed.

Lemma put_bit_uint8 n b f :
  0 <= n < 8 -> 0 <= all f < 256 -> 0 <= all (put_bit n b f) < 256.
Proof.
  intros Hn Hf. apply uint8_high_bits in Hf. destruct Hf as (H0 & Hb).
  apply uint8_high_bits. split.
  - unfold put_bit. cbn [all]. destruct b.
    + unfold Z.setbit. apply Z.lor_nonneg. split; [lia|].
      apply Z.shiftl_nonneg. lia.
    + unfold Z.clearbit. apply Z.ldiff_nonneg. left. lia.
  - intros k Hk.
    change (Z.testbit (all (put_bit n b f)) k) with (get_bit k (put_bit n b f)).
    rewrite get_bit_put_bit by lia.
    destruct (Z.eqb_spec n k); [lia|]. apply Hb, Hk.
Qed.

Lemma assign_flag_uint8 n b h :
  0 <= n < 8 -> flag_is_uint8 h -> flag_is_uint8 (assign_flag n b h).
Proof.
  intros Hn Hh. unfold flag_is_uint8. rewrite flag_assign_flag.
  apply put_bit_uint8; assumption.
Qed.

Lemma setActive_uint8 b h :
  flag_is_uint8 h -> flag_is_uint8 (setActive b h).
Proof.
  intros Hh. unfold setActive.
  destruct (negb (isFault h) && negb (sensor.type (sensor h) =? 0) && b);
    apply assign_flag_uint8; try assumption; (cbv; split; [discriminate | reflexivity]).
Qed.

Lemma call_uint8 c h : flag_is_uint8 h -> flag_is_uint8 (call c h).
Proof.
  intros Hh.
  destruct c; cbn [call].
  - exact Hh.
  - apply setActive_uint8, Hh.
  - apply assign_flag_uint8; [(cbv; split; [discriminate | reflexivity]) | exact Hh].
  - apply assign_flag_uint8; [(cbv; split; [discriminate | reflexivity]) | exact Hh].
  - apply assign_flag_uint8; [(cbv; split; [discriminate | reflexivity]) | exact Hh].
  - apply assign_flag_uint8; [(cbv; split; [discriminate | reflexivity]) | exact Hh].
  - unfold setIdle.
    assert (H1 : flag_is_uint8 (assign_flag Idle_bit onoff h))
      by (apply assign_flag_uint8; [(cbv; split; [discriminate | reflexivity]) | exact Hh]).
    destruct onoff; exact H1.
  - unfold setFault.
    apply assign_flag_uint8; [(cbv; split; [discriminate | reflexivity])|].
    apply setActive_uint8. exact Hh.
  - unfold ResetFault, SwitchOff. apply setActive_uint8.
    assert (H1 : flag_is_uint8 (assign_flag Fault_bit false h))
      by (apply assign_flag_uint8; [(cbv; split; [discriminate | reflexivity]) | exact Hh]).
    exact H1.
  - apply assign_flag_uint8; [(cbv; split; [discriminate | reflexivity]) | exact Hh].
  - cbv. split; [discriminate | reflexivity].
  - unfold SwitchOff. apply setActive_uint8. exact Hh.
Qed.

Lemma calls_snoc cs c h : calls (cs ++ [c]) h = call c (calls cs h).
Proof. unfold calls. rewrite fold_left_app. reflexivity. Qed.

(** X2.  The inline members keep the flag byte within the [uint8_t] it is
    stored in: after any sequence of calls on a heater whose flag byte is
    in 0..255 it still is.  The one-bit members never spill into bits
    above bit 7. *)
Theorem X2_flag_byte_stays_uint8 :
  forall (cs : list inline_call) (h : Heater),
    flag_is_uint8 h -> flag_is_uint8 (calls cs h).
Proof.
  intros cs h Hh. induction cs as [|c cs IH] using rev_ind; [exact Hh|].
  rewrite calls_snoc. apply call_uint8, IH.
Qed.

Lemma X2_flag_byte_stays_uint8_witness :
  flag_is_uint8
    (calls [CallSetPidTuning true; CallSetActive true; CallSetFault;
            CallSetIdle true 150] scenario_heater).
Proof.
  apply X2_flag_byte_stays_uint8. cbv. split; [discriminate | reflexivity].
Defined.

(** *** The fault latch *)

Lemma call_keeps_fault_latched c h :
  clears_fault c = false ->
  isFault h = true /\ isActive h = false /\ pwm_value h = 0 ->
  isFault (call c h) = true /\ isActive (call c h) = false
  /\ pwm_value (call c h) = 0.
Proof.
  intros Hc (F & A & P).
  assert (O : forall n b, 0 <= n -> n <> Active_bit -> n <> Fault_bit ->
              isFault (assign_flag n b h) = true
              /\ isActive (assign_flag n b h) = false
              /\ pwm_value (assign_flag n b h) = 0).
  { intros n b Hn Ha Hf.
    destruct (view_assign_other n b h Hn Ha Hf) as (EA & EF).
    rewrite EA, EF. repeat split; assumption. }
  destruct c; cbn [call]; try discriminate Hc;
    try (apply O; cbv; discriminate).
  - repeat split; assumption.
  - rewrite isFault_setActive, isActive_setActive, F.
    destruct (setActive_frame onoff h) as (EP & _). rewrite EP.
    repeat split; assumption.
  - destruct (view_setIdle onoff idle_temp h) as (EA & EF & EP & _).
    rewrite EA, EF, EP. repeat split; assumption.
  - destruct (view_setFault h) as (EA & EF & EP & _).
    repeat split; assumption.
  - destruct (view_SwitchOff h) as (EA & EF & EP & _).
    rewrite EF. repeat split; assumption.
Qed.

(** X3.  The fault is a latch for the inline members.  After [setFault()],
    whatever calls follow -- [setActive(true)] included -- the heater stays
    faulted, inactive and with [pwm_value == 0], as long as none of them
    is [ResetFault()] or [resetFlag()], the two members that store
    [false] in the Fault flag. *)
Theorem X3_fault_latch :
  forall (cs : list inline_call) (h : Heater),
    Forall (fun c => clears_fault c = false) cs ->
    let s := calls cs (setFault h) in
    isFault s = true /\ isActive s = false /\ pwm_value s = 0.
Proof.
  intros cs h F. cbv zeta.
  induction cs as [|c cs IH] using rev_ind.
  - destruct (view_setFault h) as (EA & EF & EP & _). repeat split; assumption.
  - apply Forall_app in F. destruct F as (F1 & F2).
    rewrite calls_snoc. apply call_keeps_fault_latched.
    + inversion F2; assumption.
    + apply IH, F1.
Qed.

Lemma X3_fault_latch_witness :
  let s := calls [CallSetActive true; CallSetIdle true 150; CallSwitchOff;
                  CallSetActive true; CallUpdateTemperature 20]
                 (setFault scenario_heater) in
  isFault s = true /\ isActive s = false /\ pwm_value s = 0.
Proof.
  apply X3_fault_latch. repeat constructor.
Defined.

(** *** How the switching-off members compose *)

(** Heaters written out member by member, to compare them. *)
Ltac heater_fields h :=
  destruct h as [[? ? [?] ? ? ?] ? ? ? ? ? ? ? ? ? ? ?];
  cbv beta iota zeta delta
      [assign_flag set_flag set_pwm_value set_target_temperature
       set_idle_temperature set_thermal_runaway_state put_bit
       data pid sensor watch_target_temp pwm_value consecutive_low_temp
       target_temperature idle_temperature current_temperature
       thermal_runaway_state watch_next_ms idle_timeout_time
       type pin flag ID mintemp maxtemp all
       Active_bit Fault_bit Idle_bit].

Ltac flag_bytes_equal :=
  do 3 f_equal; apply Z.bits_inj'; intros k Hk;
  repeat ((rewrite Z.setbit_eqb by (cbv; discriminate))
          || rewrite Z.clearbit_eqb);
  repeat match goal with
         | |- context [?a =? k] => destruct (Z.eqb_spec a k)
         end;
  try lia; destruct (Z.testbit _ k); reflexivity.

(** X4.  [SwitchOff()] and [ResetFault()] are idempotent, a [ResetFault()]
    absorbs a [setFault()] made just before it, and [setFault()] and
    [SwitchOff()] can be called in either order: each equation is between
    whole heater objects. *)
Theorem X4_shutdown_members_compose :
  forall h : Heater,
    SwitchOff (SwitchOff h) = SwitchOff h
    /\ ResetFault (ResetFault h) = ResetFault h
    /\ ResetFault (setFault h) = ResetFault h
    /\ setFault (SwitchOff h) = SwitchOff (setFault h).
Proof.
  intros h. unfold ResetFault, SwitchOff, setFault.
  rewrite !setActive_false.
  repeat split; heater_fields h; flag_bytes_equal.
Qed.

(** X5.  [wait_for_heating()] is false right after [setFault()],
    [SwitchOff()], [ResetFault()] and [resetFlag()], whatever the
    temperatures are: a heater that was switched off or faulted is not
    waited for. *)
Theorem X5_wait_for_heating_false_when_off :
  forall (temp_hysteresis : HeatertypeEnum -> Z) (h : Heater),
    wait_for_heating temp_hysteresis (setFault h) = false
    /\ wait_for_heating temp_hysteresis (SwitchOff h) = false
    /\ wait_for_heating temp_hysteresis (ResetFault h) = false
    /\ wait_for_heating temp_hysteresis (resetFlag h) = false.
Proof.
  intros hy h. unfold wait_for_heating.
  destruct (view_setFault h) as (A1 & _).
  destruct (view_SwitchOff h) as (A2 & _).
  destruct (view_ResetFault h) as (A3 & _).
  rewrite A1, A2, A3. repeat split.
Qed.

(** X6.  [resetFlag()] releases the fault latch without switching the
    heater off: on a heater with a sensor, [setActive(true)] after
    [setFault(); resetFlag()] activates it with [target_temperature] as
    it was before the fault.  After [setFault(); ResetFault()] it is
    activated too, but with [target_temperature == 0]. *)
Theorem X6_resetFlag_releases_latch_keeping_target :
  forall h : Heater,
    sensor.type (sensor h) <> 0 ->
    (let s := setActive true (resetFlag (setFault h)) in
     isActive s = true /\ isFault s = false
     /\ target_temperature s = target_temperature h)
    /\ (let s := setActive true (ResetFault (setFault h)) in
        isActive s = true /\ isFault s = false
        /\ target_temperature s = 0).
Proof.
  intros h Hs. cbv zeta.
  assert (E : (sensor.type (sensor h) =? 0) = false)
    by (apply Z.eqb_neq; exact Hs).
  rewrite !isActive_setActive, !isFault_setActive.
  destruct (view_ResetFault (setFault h)) as (_ & F & _ & S & _).
  destruct (view_setFault h) as (_ & _ & _ & S' & _).
  destruct (setActive_frame true (resetFlag (setFault h))) as (_ & T1 & _).
  destruct (setActive_frame true (ResetFault (setFault h))) as (_ & T2 & _).
  rewrite T1, T2, F, S, S'.
  change (sensor (resetFlag (setFault h))) with (sensor (setFault h)).
  change (isFault (resetFlag (setFault h))) with false.
  rewrite S', E. repeat split.
  - unfold setFault. rewrite setActive_false. reflexivity.
  - unfold ResetFault, SwitchOff. rewrite setActive_false. reflexivity.
Qed.

Lemma X6_resetFlag_releases_latch_keeping_target_witness :
  let h := set_target_temperature 200 scenario_heater in
  target_temperature (setActive true (resetFlag (setFault h))) = 200
  /\ target_temperature (setActive true (ResetFault (setFault h))) = 0.
Proof.
  cbv zeta.
  destruct (X6_resetFlag_releases_latch_keeping_target
              (set_target_temperature 200 scenario_heater))
    as ((_ & _ & T1) & (_ & _ & T2)).
  - cbn. discriminate.
  - split; [exact T1 | exact T2].
Defined.

(** X7.  The last call wins.  A second [setActive] makes the first one
    void.  A second [setIdle] overrides the Idle flag and the idle
    temperature of the first; of the first call only the re-arming of
    the runaway automaton (when it was [setIdle(true, ...)]) remains. *)
Theorem X7_last_call_wins :
  forall (b b' : bool) (t t' : Z) (h : Heater),
    setActive b (setActive b' h) = setActive b h
    /\ setIdle b t (setIdle b' t' h)
       = setIdle b t (if b' then set_thermal_runaway_state TRInactive h
                      else h).
Proof.
  intros b b' t t' h. split.
  - unfold setActive at 1 3.
    rewrite isFault_setActive.
    destruct (setActive_frame b' h) as (_ & _ & _ & _ & S). rewrite S.
    assert (E : forall x,
               assign_flag Active_bit x (setActive b' h)
               = assign_flag Active_bit x h).
    { intros x. unfold setActive.
      destruct (negb (isFault h) && negb (sensor.type (sensor h) =? 0) && b');
        unfold assign_flag;
        rewrite flag_set_flag, set_flag_set_flag, put_bit_twice;
        reflexivity || (cbv; discriminate). }
    rewrite !E. reflexivity.
  - unfold setIdle. destruct b, b'; heater_fields h; flag_bytes_equal.
Qed.

(** *** Active, Fault and the sensor *)

Lemma call_sensor c h : sensor (call c h) = sensor h.
Proof.
  destruct c; cbn [call]; try reflexivity.
  - apply setActive_frame.
  - apply view_setIdle.
  - apply view_setFault.
  - apply view_ResetFault.
  - apply view_SwitchOff.
Qed.

Lemma call_active_is_sound c h :
  active_is_sound h -> active_is_sound (call c h).
Proof.
  unfold active_is_sound. intros Hh. rewrite call_sensor.
  assert (O : forall n b, 0 <= n -> n <> Active_bit -> n <> Fault_bit ->
              isActive (assign_flag n b h) = true ->
              isFault (assign_flag n b h) = false
              /\ sensor.type (sensor h) <> 0).
  { intros n b Hn Ha Hf.
    destruct (view_assign_other n b h Hn Ha Hf) as (EA & EF).
    rewrite EA, EF. exact Hh. }
  destruct c; cbn [call]; try (apply O; cbv; discriminate).
  - exact Hh.
  - rewrite isActive_setActive, isFault_setActive. intros H.
    apply andb_true_iff in H. destruct H as (H & _).
    apply andb_true_iff in H. destruct H as (H1 & H2).
    split.
    + destruct (isFault h); [discriminate H1 | reflexivity].
    + intros E. rewrite E in H2. discriminate H2.
  - destruct (view_setIdle onoff idle_temp h) as (EA & EF & _).
    rewrite EA, EF. exact Hh.
  - destruct (view_setFault h) as (EA & _). rewrite EA. discriminate.
  - destruct (view_ResetFault h) as (EA & _). rewrite EA. discriminate.
  - discriminate.
  - destruct (view_SwitchOff h) as (EA & _). rewrite EA. discriminate.
Qed.

(** X18.  The inline members never leave a heater both active and
    faulted, nor active without a sensor: if Active implies
    [!Fault && sensor.type != 0] before a sequence of calls, it does so
    after it.  It holds of the zero-initialized heater, whose flags are
    all clear. *)
Theorem X18_active_heater_is_not_faulted :
  forall (cs : list inline_call) (h : Heater),
    active_is_sound h -> active_is_sound (calls cs h).
Proof.
  intros cs h Hh. induction cs as [|c cs IH] using rev_ind; [exact Hh|].
  rewrite calls_snoc. apply call_active_is_sound, IH.
Qed.

Lemma X18_active_heater_is_not_faulted_witness :
  active_is_sound
    (calls [CallSetActive true; CallSetFault; CallResetFlag;
            CallSetActive true; CallSetUsePid true] scenario_heater).
Proof.
  apply X18_active_heater_is_not_faulted. intros H. discriminate H.
Defined.

(* ===================================================================== *)
(** ** Further properties of the AVR layer *)
(* ===================================================================== *)

(** *** Critical sections *)

Lemma guarded_scope_SREG later body m :
  SREG (guarded_scope later body m) = SREG m.
Proof. reflexivity. Qed.

(** X8.  [CRITICAL_SECTION_START ... CRITICAL_SECTION_END] runs its body
    with interrupts disabled and leaves SREG as it found it, whatever the
    body does to SREG.  Critical sections nest: a guarded scope or a
    macro section that ends inside an outer one leaves interrupts
    disabled, and the outermost end restores the original state. *)
Theorem X8_critical_sections_nest :
  forall (m : machine) (body : machine -> machine) (later : bool)
         (inner : list scope_step),
    interrupts_enabled (snd (CRITICAL_SECTION_START m)) = false
    /\ SREG (critical_section body m) = SREG m
    /\ interrupts_enabled
         (guarded_scope later inner (snd (CRITICAL_SECTION_START m))) = false
    /\ interrupts_enabled
         (critical_section body (snd (IPB_ctor false m))) = false
    /\ SREG (critical_section (guarded_scope later inner) m) = SREG m
    /\ SREG (guarded_scope later
               (inner ++ [Other (critical_section body)]) m) = SREG m.
Proof.
  intros m body later inner.
  split; [apply interrupts_enabled_cli|].
  split; [reflexivity|].
  split.
  { unfold interrupts_enabled. rewrite guarded_scope_SREG.
    apply interrupts_enabled_cli. }
  split; [exact (interrupts_enabled_cli m)|].
  split; reflexivity.
Qed.

(** *** Processor-level delays *)

Lemma uint8_small x : 0 <= x < 256 -> uint8 x = x.
Proof. intros H. unfold uint8. apply Z.mod_small. exact H. Qed.

Lemma uint16_small x : 0 <= x < 65536 -> uint16 x = x.
Proof. intros H. unfold uint16. apply Z.mod_small. exact H. Qed.

(** From a counter [c] in 1..256 the loop runs [c] times. *)
Lemma delay_4cycles_loop_count fuel :
  forall c ran,
    1 <= c <= 256 -> c <= Z.of_nat fuel ->
    delay_4cycles_loop fuel c ran = Some (ran + c).
Proof.
  induction fuel as [|f IH]; intros c ran Hc Hf; [cbn in Hf; lia|].
  cbn [delay_4cycles_loop]. rewrite uint8_small by lia.
  destruct (Z.eqb_spec (c - 1) 0) as [E | E].
  - f_equal. lia.
  - rewrite IH by lia. f_equal. lia.
Qed.

Lemma HAL_delay_4cycles_rounds cy :
  HAL_delay_4cycles cy = Some (if uint8 cy =? 0 then 256 else uint8 cy).
Proof.
  unfold HAL_delay_4cycles.
  assert (B : 0 <= uint8 cy < 256) by (apply Z.mod_pos_bound; lia).
  destruct (Z.eqb_spec (uint8 cy) 0) as [E | E].
  - rewrite E. change (delay_4cycles_loop 256 0 0)
      with (delay_4cycles_loop 255 255 1).
    rewrite delay_4cycles_loop_count by lia. reflexivity.
  - rewrite delay_4cycles_loop_count by lia. reflexivity.
Qed.

(** X9.  [HAL_delay_4cycles(cy)] runs its loop [cy] times for [cy] in
    1..255, and 256 times for [cy == 0]: [dec] takes the 8-bit counter
    from 0 to 255 before [brne] tests it, so a zero argument gives the
    longest delay, not none. *)
Theorem X9_HAL_delay_4cycles_rounds :
  forall cy : Z,
    0 <= cy < 256 ->
    HAL_delay_4cycles cy = Some (if cy =? 0 then 256 else cy).
Proof.
  intros cy H. rewrite HAL_delay_4cycles_rounds, uint8_small by exact H.
  reflexivity.
Qed.

Lemma nops_switch4_small c : 0 <= c <= 4 -> nops_switch4 c = c.
Proof.
  intros H. unfold nops_switch4.
  repeat match goal with
         | |- context [?a =? ?b] => destruct (Z.eqb_spec a b)
         end; lia.
Qed.

Lemma nops_switch3_small c : 0 <= c <= 3 -> nops_switch3 c = c.
Proof.
  intros H. unfold nops_switch3.
  repeat match goal with
         | |- context [?a =? ?b] => destruct (Z.eqb_spec a b)
         end; lia.
Qed.

(** The constant path written out. *)
Lemma HAL_delay_cycles_constant c :
  4 < c < 65536 ->
  HAL_delay_cycles true c
  = Some (c mod 4,
          if uint8 (c / 4) =? 0 then 256 else uint8 (c / 4)).
Proof.
  intros H. unfold HAL_delay_cycles, MAXNOPS.
  rewrite uint16_small by lia.
  destruct (Z.leb_spec c 4); [lia|].
  assert (0 <= c mod 4 < 4) by (apply Z.mod_pos_bound; lia).
  assert (1 <= c / 4) by (apply Z.div_le_lower_bound; lia).
  destruct (Z.eqb_spec (c / 4) 0); [lia|].
  rewrite HAL_delay_4cycles_rounds, nops_switch3_small by lia.
  reflexivity.
Qed.

(** X10.  On the constant path [HAL_delay_cycles(cycles)] accounts for
    every requested cycle when [cycles <= 1027]: the single [nop]s plus
    four for each round of the loop of [HAL_delay_4cycles] add up to
    [cycles], with at most four single [nop]s. *)
Theorem X10_HAL_delay_cycles_constant_exact :
  forall c : Z,
    0 <= c <= 1027 ->
    exists n l,
      HAL_delay_cycles true c = Some (n, l)
      /\ n + 4 * l = c /\ 0 <= n <= 4 /\ 0 <= l <= 256.
Proof.
  intros c H.
  destruct (Z_le_gt_dec c 4) as [Hs | Hl].
  - exists c, 0. unfold HAL_delay_cycles, MAXNOPS.
    rewrite uint16_small by lia.
    destruct (Z.leb_spec c 4); [|lia].
    rewrite nops_switch4_small by lia. repeat split; lia.
  - rewrite HAL_delay_cycles_constant by lia.
    assert (Hm : 0 <= c mod 4 < 4) by (apply Z.mod_pos_bound; lia).
    assert (Hd : c = 4 * (c / 4) + c mod 4) by (apply Z.div_mod; lia).
    assert (Hq : 1 <= c / 4 <= 256) by lia.
    eexists. eexists. split; [reflexivity|].
    destruct (Z.eq_dec (c / 4) 256) as [E | E].
    + rewrite E. change (uint8 256 =? 0) with true. cbv iota. lia.
    + rewrite uint8_small by lia.
      destruct (Z.eqb_spec (c / 4) 0); lia.
Qed.

Lemma X10_HAL_delay_cycles_constant_exact_witness :
  exists n l, HAL_delay_cycles true 1027 = Some (n, l) /\ n + 4 * l = 1027.
Proof.
  destruct (X10_HAL_delay_cycles_constant_exact 1027) as (n & l & E & S & _).
  - lia.
  - exists n, l. split; assumption.
Defined.

(** X11.  From 1028 cycles on, the constant path delays for less than was
    asked: [cycles / 4] no longer fits the [uint8_t] parameter of
    [HAL_delay_4cycles], only its low 8 bits count, and the loop never
    runs more than 256 times. *)
Theorem X11_HAL_delay_cycles_constant_truncates :
  forall c : Z,
    1028 <= c < 65536 ->
    exists n l,
      HAL_delay_cycles true c = Some (n, l)
      /\ 1 <= l <= 256 /\ 0 <= n <= 3 /\ n + 4 * l < c.
Proof.
  intros c H. rewrite HAL_delay_cycles_constant by lia.
  assert (Hm : 0 <= c mod 4 < 4) by (apply Z.mod_pos_bound; lia).
  assert (Hd : c = 4 * (c / 4) + c mod 4) by (apply Z.div_mod; lia).
  assert (Hu : 0 <= uint8 (c / 4) < 256) by (apply Z.mod_pos_bound; lia).
  eexists. eexists. split; [reflexivity|].
  destruct (Z.eqb_spec (uint8 (c / 4)) 0); lia.
Qed.

Lemma X11_HAL_delay_cycles_constant_truncates_witness :
  HAL_delay_cycles true 1028 = Some (0, 1)
  /\ exists n l, HAL_delay_cycles true 1028 = Some (n, l) /\ n + 4 * l < 1028.
Proof.
  split; [reflexivity|].
  destruct (X11_HAL_delay_cycles_constant_truncates 1028) as (n & l & E & _ & _ & S).
  - lia.
  - exists n, l. split; assumption.
Defined.

(** X12.  On the non-constant path [HAL_delay_cycles(cycles)] is
    [HAL_delay_4cycles(cycles / 4)]: no single [nop]s, [cycles / 4] rounds
    for [cycles] in 4..1023 -- and 256 rounds, the longest delay there is,
    when fewer than 4 cycles are asked for. *)
Theorem X12_HAL_delay_cycles_variable :
  forall c : Z,
    0 <= c < 65536 ->
    exists l,
      HAL_delay_cycles false c = Some (0, l)
      /\ 1 <= l <= 256
      /\ (c < 4 -> l = 256)
      /\ (4 <= c <= 1023 -> l = c / 4).
Proof.
  intros c H. unfold HAL_delay_cycles.
  rewrite uint16_small, HAL_delay_4cycles_rounds by lia.
  assert (Hu : 0 <= uint8 (c / 4) < 256) by (apply Z.mod_pos_bound; lia).
  eexists. split; [reflexivity|].
  split; [destruct (Z.eqb_spec (uint8 (c / 4)) 0); lia|].
  split.
  - intros Hc. rewrite Z.div_small by lia. reflexivity.
  - intros Hc.
    assert (1 <= c / 4) by (apply Z.div_le_lower_bound; lia).
    assert (c / 4 < 256) by (apply Z.div_lt_upper_bound; lia).
    rewrite uint8_small by lia.
    destruct (Z.eqb_spec (c / 4) 0); lia.
Qed.

Lemma X12_HAL_delay_cycles_variable_witness :
  exists l, HAL_delay_cycles false 3 = Some (0, l) /\ l = 256.
Proof.
  destruct (X12_HAL_delay_cycles_variable 3) as (l & E & _ & S & _).
  - lia.
  - exists l. split; [exact E | apply S; lia].
Defined.

Lemma X9_HAL_delay_4cycles_rounds_witness :
  HAL_delay_4cycles 0 = Some 256 /\ HAL_delay_4cycles 1 = Some 1.
Proof.
  split.
  - apply (X9_HAL_delay_4cycles_rounds 0). lia.
  - apply (X9_HAL_delay_4cycles_rounds 1). lia.
Defined.

(** *** [HAL::delayMilliseconds] *)

Lemma delay_chunks_zero : delay_chunks 0 = [].
Proof. reflexivity. Qed.

Lemma delay_chunks_last d : 0 < d <= 100 -> delay_chunks d = [d].
Proof.
  intros H. unfold delay_chunks.
  destruct (Z.eq_dec d 100) as [-> | Hne]; [reflexivity|].
  rewrite Z.div_small, Z.mod_small by lia.
  destruct (Z.eqb_spec d 0); [lia | reflexivity].
Qed.

Lemma delay_chunks_step d :
  100 < d -> delay_chunks d = 100 :: delay_chunks (d - 100).
Proof.
  intros H. unfold delay_chunks.
  assert (Hq : d / 100 = (d - 100) / 100 + 1).
  { replace d with ((d - 100) + 1 * 100) at 1 by lia.
    apply Z.div_add. lia. }
  assert (Hm : d mod 100 = (d - 100) mod 100).
  { replace d with ((d - 100) + 1 * 100) at 1 by lia.
    apply Z.mod_add. lia. }
  assert (0 <= (d - 100) / 100) by (apply Z.div_pos; lia).
  rewrite Hq, Hm, Z2Nat.inj_add by lia.
  rewrite Nat.add_comm. reflexivity.
Qed.

Lemma delayMilliseconds_loop_events fuel :
  forall d,
    0 <= d < 65536 -> d < Z.of_nat fuel ->
    delayMilliseconds_loop fuel d = Some (delay_events (delay_chunks d)).
Proof.
  induction fuel as [|f IH]; intros d Hd Hf; [cbn in Hf; lia|].
  cbn [delayMilliseconds_loop].
  destruct (Z.ltb_spec 0 d) as [Hp | Hz].
  - destruct (Z.ltb_spec 100 d) as [Hl | Hs].
    + rewrite uint16_small, IH by lia.
      rewrite (delay_chunks_step d Hl). reflexivity.
    + rewrite Z.sub_diag. change (uint16 0) with 0.
      rewrite IH by lia.
      rewrite delay_chunks_zero, (delay_chunks_last d) by lia. reflexivity.
  - replace d with 0 by lia. reflexivity.
Qed.

Lemma sum_repeat_100 n :
  fold_right Z.add 0 (repeat 100 n) = 100 * Z.of_nat n.
Proof.
  induction n as [|n IH]; [reflexivity|].
  cbn [repeat fold_right]. rewrite IH. lia.
Qed.

(** X13.  [HAL::delayMilliseconds(delayMs)] waits in pieces of at most
    100 ms and resets the watchdog after each piece: as many pieces of
    100 ms as fit, then the rest.  The pieces add up to [delayMs], there
    are [ceil(delayMs / 100)] of them, and for [delayMs == 0] nothing is
    called at all, the watchdog reset included. *)
Theorem X13_delayMilliseconds_pieces :
  forall d : Z,
    0 <= d < 65536 ->
    delayMilliseconds d = Some (delay_events (delay_chunks d))
    /\ fold_right Z.add 0 (delay_chunks d) = d
    /\ Forall (fun c => 1 <= c <= 100) (delay_chunks d)
    /\ Z.of_nat (length (delay_chunks d)) = (d + 99) / 100.
Proof.
  intros d H.
  assert (Hm : 0 <= d mod 100 < 100) by (apply Z.mod_pos_bound; lia).
  assert (Hq : 0 <= d / 100) by (apply Z.div_pos; lia).
  assert (Hd : d = 100 * (d / 100) + d mod 100) by (apply Z.div_mod; lia).
  split.
  { unfold delayMilliseconds. rewrite uint16_small by exact H.
    apply delayMilliseconds_loop_events; [exact H|]. lia. }
  unfold delay_chunks. split; [|split].
  - rewrite fold_right_app.
    destruct (Z.eqb_spec (d mod 100) 0) as [E | E]; cbn [fold_right].
    + rewrite sum_repeat_100, Z2Nat.id by lia. lia.
    + replace (fold_right Z.add (d mod 100 + 0) (repeat 100 (Z.to_nat (d / 100))))
        with (fold_right Z.add 0 (repeat 100 (Z.to_nat (d / 100))) + d mod 100).
      * rewrite sum_repeat_100, Z2Nat.id by lia. lia.
      * generalize (Z.to_nat (d / 100)). intros n.
        induction n as [|n IH]; cbn [repeat fold_right]; [lia|].
        rewrite <- IH. lia.
  - apply Forall_app. split.
    + apply Forall_forall. intros c Hc. apply repeat_spec in Hc. lia.
    + destruct (Z.eqb_spec (d mod 100) 0); constructor; [lia | constructor].
  - rewrite length_app, repeat_length, Nat2Z.inj_add, Z2Nat.id by lia.
    destruct (Z.eqb_spec (d mod 100) 0) as [E | E]; cbn [length].
    + apply Z.div_unique with (r := 99); lia.
    + apply Z.div_unique with (r := d mod 100 - 1); lia.
Qed.

Lemma X13_delayMilliseconds_pieces_witness :
  delayMilliseconds 250
  = Some [Delay 100; WatchdogReset; Delay 100; WatchdogReset;
          Delay 50; WatchdogReset]
  /\ delayMilliseconds 0 = Some [].
Proof.
  split.
  - apply (X13_delayMilliseconds_pieces 250). lia.
  - apply (X13_delayMilliseconds_pieces 0). lia.
Defined.

(** *** What the handlers leave behind *)

Lemma callee_saved_lt r : callee_saved r = true -> (r < 32)%nat.
Proof.
  intros H. do 32 (destruct r as [|r]; [lia|]). discriminate H.
Qed.

Lemma not_saved_by_entry r :
  (r < 32)%nat -> saved_by_entry r = false ->
  callee_saved r = true /\ r <> 16%nat /\ r <> 1%nat.
Proof.
  intros Hr H.
  do 32 (destruct r as [|r];
         [first [discriminate H | repeat split; discriminate]|]).
  lia.
Qed.

(** Bits of the two masks built from an enable bit number. *)
Lemma mask_bits b k :
  0 <= b < 8 -> 0 <= k < 8 ->
  Z.testbit (lo8 (Z.shiftl 1 b)) k = (b =? k)
  /\ Z.testbit (lo8 (Z.lnot (lo8 (Z.shiftl 1 b)))) k = negb (b =? k).
Proof.
  intros Hb Hk.
  destruct (bit_cases b Hb) as [-> | [-> | [-> | [-> | [-> | [-> | [-> | ->]]]]]]];
    destruct (bit_cases k Hk) as [-> | [-> | [-> | [-> | [-> | [-> | [-> | ->]]]]]]];
    split; reflexivity.
Qed.

(** Clearing an enable bit and setting it again: the bit is set and the
    other seven are as they were. *)
Lemma mask_then_set b k v :
  0 <= b < 8 -> 0 <= k < 8 ->
  Z.testbit (Z.lor (Z.land v (lo8 (Z.lnot (lo8 (Z.shiftl 1 b)))))
                   (lo8 (lo8 (Z.shiftl 1 b)))) k
  = if b =? k then true else Z.testbit v k.
Proof.
  intros Hb Hk.
  destruct (mask_bits b k Hb Hk) as (M1 & M2).
  rewrite Z.lor_spec, Z.land_spec, M2.
  assert (E : Z.testbit (lo8 (lo8 (Z.shiftl 1 b))) k = (b =? k)).
  { unfold lo8 at 1. rewrite Z.land_spec, M1.
    destruct (bit_cases k Hk) as [-> | [-> | [-> | [-> | [-> | [-> | [-> | ->]]]]]]];
      apply andb_true_r. }
  rewrite E. destruct (b =? k); cbn; [apply orb_true_r|].
  rewrite andb_true_r, orb_false_r. reflexivity.
Qed.

(** The status register after [reti]: the flags of before the interrupt,
    with the I bit set. *)
Lemma SREG_after_reti m k :
  Z.testbit (Z.setbit (SREG (irq_entry m)) SREG_I) k
  = if SREG_I =? k then true else Z.testbit (SREG m) k.
Proof.
  unfold irq_entry, cli. cbn [SREG set_SREG].
  rewrite Z.setbit_eqb by (cbv; discriminate).
  rewrite Z.clearbit_eqb.
  destruct (SREG_I =? k); cbn; [reflexivity | apply andb_true_r].
Qed.

Section HandlerEffects.

Variable OCIE0B : Z.
Variable OCIE1A : Z.

Local Abbreviation msk0 := (msk0 OCIE0B).
Local Abbreviation msk1 := (msk1 OCIE1A).
Local Abbreviation stepper_handler := (stepper_handler OCIE0B OCIE1A).
Local Abbreviation temp_handler := (temp_handler OCIE0B OCIE1A).
Local Abbreviation run_temp_body := (run_temp_body OCIE0B OCIE1A).

(** Symbolic execution, one instruction at a time, each state written
    out field by field. *)
Ltac sym_instr :=
  eapply exec_trace_step;
  [ cbv beta iota zeta delta
        [exec_traced exec_instr irq_entry cli sei set_R set_SREG set_TIMSK0
         set_TIMSK1 set_stack write_io read_io R SREG TIMSK0 TIMSK1 stack
         Nat.eqb];
    reflexivity
  | ].

Ltac sym_run := repeat sym_instr; reflexivity.

Ltac own_entries :=
  repeat (apply Forall_cons;
          [ cbv beta iota zeta delta
                [irq_entry cli sei set_R set_SREG set_TIMSK0 set_TIMSK1
                 set_stack R SREG TIMSK0 TIMSK1 stack Nat.eqb
                 interrupts_enabled entry_ok fst snd];
            repeat split; rewrite ?logic_flags_I; apply Z.clearbit_eq
          | ]);
  apply Forall_nil.

(** The stack layout the entry sequences build above the interrupted
    code's stack: the 14 call-clobbered registers, last pushed first. *)
Lemma stepper_prologue_full b m :
  exists t1 m1,
    exec_trace b (stepper_prologue OCIE0B OCIE1A) (irq_entry m)
    = Some (t1, m1)
    /\ stack m1
       = R m 31%nat :: R m 30%nat :: R m 27%nat :: R m 26%nat
         :: R m 25%nat :: R m 24%nat :: R m 23%nat :: R m 22%nat
         :: R m 21%nat :: R m 20%nat :: R m 19%nat :: R m 18%nat
         :: R m 1%nat :: R m 0%nat
         :: TIMSK0 m :: SREG (irq_entry m) :: R m 16%nat :: stack m
    /\ (forall r, r <> 16%nat -> r <> 1%nat -> R m1 r = R m r)
    /\ R m1 16%nat = Z.land (TIMSK1 m) (lo8 (Z.lnot msk1))
    /\ TIMSK1 m1 = Z.land (TIMSK1 m) (lo8 (Z.lnot msk1))
    /\ Forall (entry_ok (fun _ => True) (fun _ => True)) t1.
Proof.
  destruct m as [R0 S0 T0 T1 st].
  unfold HAL_AVR.stepper_prologue, HAL_AVR.STEPPER_TIMER_ISR. cbn [firstn].
  eexists. eexists. split; [sym_run|].
  split; [reflexivity|]. split.
  { intros r H16 H1. cbn [R].
    do 17 (destruct r as [|r]; [first [reflexivity | contradiction]|]).
    reflexivity. }
  do 2 (split; [reflexivity|]).
  own_entries.
Qed.

Lemma stepper_epilogue_full b mb (R0 : nat -> Z) t0 sr rest :
  stack mb
  = R0 31%nat :: R0 30%nat :: R0 27%nat :: R0 26%nat
    :: R0 25%nat :: R0 24%nat :: R0 23%nat :: R0 22%nat
    :: R0 21%nat :: R0 20%nat :: R0 19%nat :: R0 18%nat
    :: R0 1%nat :: R0 0%nat :: t0 :: sr :: R0 16%nat :: rest ->
  exists t2 mf,
    exec_trace b (stepper_epilogue OCIE0B OCIE1A) mb = Some (t2, mf)
    /\ (forall r, R mf r = if saved_by_entry r then R0 r else R mb r)
    /\ stack mf = rest
    /\ SREG mf = Z.setbit sr SREG_I
    /\ TIMSK0 mf = t0
    /\ TIMSK1 mf = Z.lor (R mb 16%nat) (lo8 msk1)
    /\ Forall (entry_ok (fun _ => True) (fun _ => True)) t2.
Proof.
  destruct mb as [Rb Sb T0b T1b stb]. cbn [stack]. intros ->.
  unfold HAL_AVR.stepper_epilogue, HAL_AVR.STEPPER_TIMER_ISR. cbn [skipn].
  eexists. eexists. split; [sym_run|].
  split.
  { intros r. cbn [R].
    do 32 (destruct r as [|r]; [reflexivity|]). reflexivity. }
  do 4 (split; [reflexivity|]).
  own_entries.
Qed.

(** The motion handler, start to end. *)
Lemma stepper_handler_effect sb m :
  Forall abi_ok sb ->
  exists t1 m1 t2 mf,
    stepper_handler sb m
    = Some (t1 ++ (At CALL, m1)
               :: map (fun x => (InBody, x)) (fst (run_code sb m1)) ++ t2,
            mf)
    /\ Forall (entry_ok (fun _ => True) (fun _ => True)) t1
    /\ Forall (entry_ok (fun _ => True) (fun _ => True)) t2
    /\ TIMSK1 m1 = Z.land (TIMSK1 m) (lo8 (Z.lnot msk1))
    /\ (forall r, (r < 32)%nat -> R mf r = R m r)
    /\ stack mf = stack m
    /\ SREG mf = Z.setbit (SREG (irq_entry m)) SREG_I
    /\ TIMSK0 mf = TIMSK0 m
    /\ TIMSK1 mf
       = Z.lor (Z.land (TIMSK1 m) (lo8 (Z.lnot msk1))) (lo8 msk1).
Proof.
  intros Habi.
  set (body := fun x : machine => Some (run_code sb x)).
  destruct (stepper_prologue_full body m)
    as (t1 & m1 & E1 & Hst & HR1 & HR16 & HT1 & F1).
  destruct (run_code_abi sb m1 Habi) as (Hs & Hcs).
  destruct (stepper_epilogue_full body (snd (run_code sb m1)) (R m)
              (TIMSK0 m) (SREG (irq_entry m)) (stack m))
    as (t2 & mf & E2 & HRf & Hstf & HSf & HT0f & HT1f & F2).
  { rewrite Hs. exact Hst. }
  exists t1, m1, t2, mf.
  split.
  { unfold HAL_AVR.stepper_handler. fold body.
    apply (handler_run _ _ _ body _ t1 m1 _ (snd (run_code sb m1)) t2 mf
             (STEPPER_TIMER_ISR_cut OCIE0B OCIE1A) E1); [|exact E2].
    unfold body. destruct (run_code sb m1); reflexivity. }
  do 3 (split; [assumption|]).
  split.
  { intros r Hr. rewrite HRf.
    destruct (saved_by_entry r) eqn:Hsv; [reflexivity|].
    destruct (not_saved_by_entry r Hr Hsv) as (Hc & H16 & H1).
    rewrite Hcs by exact Hc. apply HR1; assumption. }
  do 3 (split; [assumption|]).
  rewrite HT1f, Hcs by reflexivity. rewrite HR16. reflexivity.
Qed.

(** X14.  The motion handler is invisible to the code it interrupts:
    around any body that follows the calling convention it returns with
    all 32 general registers, the stack and the flags of SREG as they
    were at the interrupt, and with global interrupts enabled by
    [reti]. *)
Theorem X14_stepper_handler_preserves_context :
  forall (sb : list (machine -> machine)) (m : machine),
    Forall abi_ok sb ->
    exists tr mf,
      stepper_handler sb m = Some (tr, mf)
      /\ (forall r, (r < 32)%nat -> R mf r = R m r)
      /\ stack mf = stack m
      /\ (forall k, k <> SREG_I ->
            Z.testbit (SREG mf) k = Z.testbit (SREG m) k)
      /\ interrupts_enabled mf = true.
Proof.
  intros sb m Habi.
  destruct (stepper_handler_effect sb m Habi)
    as (t1 & m1 & t2 & mf & E & _ & _ & _ & HR & Hst & HS & _).
  eexists. exists mf. split; [exact E|].
  split; [exact HR|]. split; [exact Hst|]. split.
  - intros k Hk. rewrite HS, SREG_after_reti.
    destruct (Z.eqb_spec SREG_I k); [congruence | reflexivity].
  - unfold interrupts_enabled. rewrite HS, SREG_after_reti.
    rewrite Z.eqb_refl. reflexivity.
Qed.

Lemma temp_prologue_full b m :
  exists t1 m1,
    exec_trace b (temp_prologue OCIE0B) (irq_entry m) = Some (t1, m1)
    /\ stack m1
       = R m 31%nat :: R m 30%nat :: R m 27%nat :: R m 26%nat
         :: R m 25%nat :: R m 24%nat :: R m 23%nat :: R m 22%nat
         :: R m 21%nat :: R m 20%nat :: R m 19%nat :: R m 18%nat
         :: R m 1%nat :: R m 0%nat
         :: SREG (irq_entry m) :: R m 16%nat :: stack m
    /\ (forall r, r <> 16%nat -> r <> 1%nat -> R m1 r = R m r)
    /\ R m1 16%nat = Z.land (TIMSK0 m) (lo8 (Z.lnot msk0))
    /\ TIMSK1 m1 = TIMSK1 m
    /\ Forall (entry_ok (fun _ => True) (fun _ => True)) t1.
Proof.
  destruct m as [R0 S0 T0 T1 st].
  unfold HAL_AVR.temp_prologue, HAL_AVR.TEMP_TIMER_ISR. cbn [firstn].
  eexists. eexists. split; [sym_run|].
  split; [reflexivity|]. split.
  { intros r H16 H1. cbn [R].
    do 17 (destruct r as [|r]; [first [reflexivity | contradiction]|]).
    reflexivity. }
  do 2 (split; [reflexivity|]).
  own_entries.
Qed.

Lemma temp_epilogue_full b mb (R0 : nat -> Z) sr rest :
  stack mb
  = R0 31%nat :: R0 30%nat :: R0 27%nat :: R0 26%nat
    :: R0 25%nat :: R0 24%nat :: R0 23%nat :: R0 22%nat
    :: R0 21%nat :: R0 20%nat :: R0 19%nat :: R0 18%nat
    :: R0 1%nat :: R0 0%nat :: sr :: R0 16%nat :: rest ->
  exists t2 mf,
    exec_trace b (temp_epilogue OCIE0B) mb = Some (t2, mf)
    /\ (forall r, R mf r = if saved_by_entry r then R0 r else R mb r)
    /\ stack mf = rest
    /\ SREG mf = Z.setbit sr SREG_I
    /\ TIMSK0 mf = Z.lor (R mb 16%nat) (lo8 msk0)
    /\ TIMSK1 mf = TIMSK1 mb
    /\ Forall (entry_ok (fun _ => True) (fun _ => True)) t2.
Proof.
  destruct mb as [Rb Sb T0b T1b stb]. cbn [stack]. intros ->.
  unfold HAL_AVR.temp_epilogue, HAL_AVR.TEMP_TIMER_ISR. cbn [skipn].
  eexists. eexists. split; [sym_run|].
  split.
  { intros r. cbn [R].
    do 32 (destruct r as [|r]; [reflexivity|]). reflexivity. }
  do 4 (split; [reflexivity|]).
  own_entries.
Qed.

(** A temperature body that follows the calling convention returns with
    the stack and the callee-saved registers as it found them, the
    preemptions by the motion handler included. *)
Lemma run_temp_body_abi tb :
  Forall tstep_abi tb ->
  forall m,
  exists tr mb,
    run_temp_body tb m = Some (tr, mb)
    /\ stack mb = stack m
    /\ forall r, callee_saved r = true -> R mb r = R m r.
Proof.
  induction 1 as [|x tb Hx F IH]; intros m.
  - exists [], m. repeat split.
  - destruct x as [f | sb]; cbn [HAL_AVR.run_temp_body].
    + destruct (Hx m) as (Hs & Hr).
      destruct (IH (f m)) as (tr & mb & E & Hst & HR).
      rewrite E. exists (f m :: tr), mb.
      split; [reflexivity|]. split; [congruence|].
      intros r Hc. rewrite HR, Hr by exact Hc. reflexivity.
    + destruct (interrupts_enabled m && STEPPER_ISR_ENABLED OCIE1A m).
      * destruct (stepper_handler_effect sb m Hx)
          as (t1 & m1 & t2 & mf & E1 & _ & _ & _ & HR1 & Hs1 & _).
        rewrite E1.
        destruct (IH mf) as (tr & mb & E & Hst & HR).
        rewrite E. eexists. exists mb.
        split; [reflexivity|]. split; [congruence|].
        intros r Hc. rewrite HR by exact Hc.
        apply HR1, callee_saved_lt, Hc.
      * apply IH.
Qed.

(** The temperature handler, start to end. *)
Lemma temp_handler_effect tb m :
  Forall tstep_abi tb ->
  exists tr mf,
    temp_handler tb m = Some (tr, mf)
    /\ (forall r, (r < 32)%nat -> R mf r = R m r)
    /\ stack mf = stack m
    /\ SREG mf = Z.setbit (SREG (irq_entry m)) SREG_I
    /\ TIMSK0 mf
       = Z.lor (Z.land (TIMSK0 m) (lo8 (Z.lnot msk0))) (lo8 msk0).
Proof.
  intros Habi.
  set (body := run_temp_body tb).
  destruct (temp_prologue_full body m)
    as (t1 & m1 & E1 & Hst & HR1 & HR16 & _ & F1).
  destruct (run_temp_body_abi tb Habi m1) as (trb & mb & Eb & Hs & Hcs).
  destruct (temp_epilogue_full body mb (R m) (SREG (irq_entry m)) (stack m))
    as (t2 & mf & E2 & HRf & Hstf & HSf & HT0f & _ & F2).
  { rewrite Hs. exact Hst. }
  eexists. exists mf. split.
  { unfold HAL_AVR.temp_handler. fold body.
    exact (handler_run _ _ _ body _ t1 m1 trb mb t2 mf
             (TEMP_TIMER_ISR_cut OCIE0B) E1 Eb E2). }
  split.
  { intros r Hr. rewrite HRf.
    destruct (saved_by_entry r) eqn:Hsv; [reflexivity|].
    destruct (not_saved_by_entry r Hr Hsv) as (Hc & H16 & H1).
    rewrite Hcs by exact Hc. apply HR1; assumption. }
  do 2 (split; [assumption|]).
  rewrite HT0f, Hcs by reflexivity. rewrite HR16. reflexivity.
Qed.

(** X16.  The temperature handler is invisible to the code it interrupts
    as well, with the motion handler preempting its body any number of
    times: all 32 general registers, the stack and the flags of SREG come
    back as they were, and [reti] enables global interrupts. *)
Theorem X16_temp_handler_preserves_context :
  forall (tb : list tstep) (m : machine),
    Forall tstep_abi tb ->
    exists tr mf,
      temp_handler tb m = Some (tr, mf)
      /\ (forall r, (r < 32)%nat -> R mf r = R m r)
      /\ stack mf = stack m
      /\ (forall k, k <> SREG_I ->
            Z.testbit (SREG mf) k = Z.testbit (SREG m) k)
      /\ interrupts_enabled mf = true.
Proof.
  intros tb m Habi.
  destruct (temp_handler_effect tb m Habi)
    as (tr & mf & E & HR & Hst & HS & _).
  exists tr, mf. split; [exact E|].
  split; [exact HR|]. split; [exact Hst|]. split.
  - intros k Hk. rewrite HS, SREG_after_reti.
    destruct (Z.eqb_spec SREG_I k); [congruence | reflexivity].
  - unfold interrupts_enabled. rewrite HS, SREG_after_reti.
    rewrite Z.eqb_refl. reflexivity.
Qed.

Hypothesis OCIE1A_range : 0 <= OCIE1A < 8.

(** X15.  The motion handler masks its own interrupt while its body runs
    and always leaves it enabled: at the [call] OCIE1A is clear; on
    return OCIE1A is set whatever it was on entry and whatever the body
    wrote to TIMSK1, and the other seven bits of TIMSK1 are those of
    entry -- the body's own writes to TIMSK1 are overwritten. *)
Theorem X15_stepper_handler_reenables_itself :
  forall (sb : list (machine -> machine)) (m : machine),
    Forall abi_ok sb ->
    exists tr mf,
      stepper_handler sb m = Some (tr, mf)
      /\ (forall s, In (At CALL, s) tr ->
            STEPPER_ISR_ENABLED OCIE1A s = false)
      /\ STEPPER_ISR_ENABLED OCIE1A mf = true
      /\ (forall k, 0 <= k < 8 -> k <> OCIE1A ->
            Z.testbit (TIMSK1 mf) k = Z.testbit (TIMSK1 m) k).
Proof.
  intros sb m Habi.
  destruct (stepper_handler_effect sb m Habi)
    as (t1 & m1 & t2 & mf & E & F1 & F2 & HT1 & _ & _ & _ & _ & HT1f).
  rewrite Forall_forall in F1, F2.
  eexists. exists mf. split; [exact E|]. split; [|split].
  - intros s H. apply handler_trace_cases in H.
    destruct H as [H | [(_ & ->) | [(H & _) | H]]].
    + apply F1 in H. contradiction.
    + unfold STEPPER_ISR_ENABLED. rewrite HT1, Z.land_spec.
      destruct (mask_bits OCIE1A OCIE1A OCIE1A_range OCIE1A_range)
        as (_ & M).
      unfold HAL_AVR.msk1. rewrite M, Z.eqb_refl. apply andb_false_r.
    + discriminate H.
    + apply F2 in H. contradiction.
  - unfold STEPPER_ISR_ENABLED. rewrite HT1f. unfold HAL_AVR.msk1.
    rewrite mask_then_set, Z.eqb_refl by assumption. reflexivity.
  - intros k Hk Hne. rewrite HT1f. unfold HAL_AVR.msk1.
    rewrite mask_then_set by assumption.
    destruct (Z.eqb_spec OCIE1A k); [congruence | reflexivity].
Qed.

Hypothesis OCIE0B_range : 0 <= OCIE0B < 8.

(** X17.  The temperature handler returns with OCIE0B set and the other
    seven bits of TIMSK0 as they were on entry, around any body that
    follows the calling convention: the value it stores is computed from
    the one it read on entry, so what the body itself wrote to TIMSK0 is
    overwritten. *)
Theorem X17_temp_handler_exit_TIMSK0 :
  forall (tb : list tstep) (m : machine),
    Forall tstep_abi tb ->
    exists tr mf,
      temp_handler tb m = Some (tr, mf)
      /\ TEMP_ISR_ENABLED OCIE0B mf = true
      /\ (forall k, 0 <= k < 8 -> k <> OCIE0B ->
            Z.testbit (TIMSK0 mf) k = Z.testbit (TIMSK0 m) k).
Proof.
  intros tb m Habi.
  destruct (temp_handler_effect tb m Habi)
    as (tr & mf & E & _ & _ & _ & HT).
  exists tr, mf. split; [exact E|]. split.
  - unfold TEMP_ISR_ENABLED. rewrite HT. unfold HAL_AVR.msk0.
    rewrite mask_then_set, Z.eqb_refl by assumption. reflexivity.
  - intros k Hk Hne. rewrite HT. unfold HAL_AVR.msk0.
    rewrite mask_then_set by assumption.
    destruct (Z.eqb_spec OCIE0B k); [congruence | reflexivity].
Qed.

End HandlerEffects.

(** *** The handler properties on the example machine *)

Lemma tstep_ok_abi s : tstep_ok s -> tstep_abi s.
Proof.
  destruct s as [f | sb]; cbn [tstep_ok tstep_abi].
  - intros H. apply H.
  - intros H. eapply Forall_impl; [|exact H]. intros f Hf. apply Hf.
Qed.

Lemma example_temp_body_abi : Forall tstep_abi example_temp_body.
Proof.
  eapply Forall_impl; [|exact example_temp_body_ok].
  intros s. apply tstep_ok_abi.
Qed.

Lemma example_stepper_body_masking_abi :
  Forall abi_ok example_stepper_body_masking.
Proof. repeat constructor. Qed.

Lemma example_temp_body_writing_abi :
  Forall tstep_abi example_temp_body_writing.
Proof. repeat constructor. Qed.

Lemma X14_stepper_handler_preserves_context_witness :
  exists tr mf,
    stepper_handler 2 1 example_stepper_body example_machine = Some (tr, mf)
    /\ R mf 24%nat = 24 /\ stack mf = [42].
Proof.
  destruct (X14_stepper_handler_preserves_context 2 1
              example_stepper_body example_machine example_stepper_body_abi)
    as (tr & mf & E & HR & Hs & _).
  exists tr, mf. split; [exact E|]. split; [|exact Hs].
  apply (HR 24%nat). lia.
Defined.

Lemma X15_stepper_handler_reenables_itself_witness :
  exists tr mf,
    stepper_handler 2 1 example_stepper_body_masking example_machine
    = Some (tr, mf)
    /\ STEPPER_ISR_ENABLED 1 mf = true.
Proof.
  assert (Hb : 0 <= 1 < 8) by lia.
  destruct (X15_stepper_handler_reenables_itself 2 1 Hb
              example_stepper_body_masking example_machine
              example_stepper_body_masking_abi)
    as (tr & mf & E & _ & H & _).
  exists tr, mf. split; [exact E | exact H].
Defined.

Lemma X16_temp_handler_preserves_context_witness :
  exists tr mf,
    temp_handler 2 1 example_temp_body example_machine = Some (tr, mf)
    /\ R mf 18%nat = 18 /\ stack mf = [42].
Proof.
  destruct (X16_temp_handler_preserves_context 2 1
              example_temp_body example_machine example_temp_body_abi)
    as (tr & mf & E & HR & Hs & _).
  exists tr, mf. split; [exact E|]. split; [|exact Hs].
  apply (HR 18%nat). lia.
Defined.

Lemma X17_temp_handler_exit_TIMSK0_witness :
  exists tr mf,
    temp_handler 2 1 example_temp_body_writing example_machine
    = Some (tr, mf)
    /\ TEMP_ISR_ENABLED 2 mf = true
    /\ Z.testbit (TIMSK0 mf) 1 = false.
Proof.
  assert (Hb : 0 <= 2 < 8) by lia.
  destruct (X17_temp_handler_exit_TIMSK0 2 1 Hb
              example_temp_body_writing example_machine
              example_temp_body_writing_abi)
    as (tr & mf & E & H & Hk).
  exists tr, mf. split; [exact E|]. split; [exact H|].
  rewrite Hk by lia. reflexivity.
Defined.

Example handlers_discard_mask_writes :
  match stepper_handler 2 1 example_stepper_body_masking example_machine,
        temp_handler 2 1 example_temp_body_writing example_machine with
  | Some (_, ms), Some (_, mt) =>
      TIMSK1 ms = 2 /\ TIMSK0 ms = 5 /\ TIMSK0 mt = 5
  | _, _ => False
  end.
Proof. vm_compute. repeat split. Qed.
